(** * ScoreReader: the multi-version score loader of [engraving/rw/scorereader.cpp]

    A shallow embedding of [ScoreReader::loadMscz], [ScoreReader::read] and
    [ScoreReader::doRead].  The three functions are orchestration code: they
    drive a forward-only XML stream, the package reader and the per-version
    element readers.  The element readers, the style and chord-list parsers,
    the image store and the excerpt linker are not part of the sources read
    here; they are the fields of the class [Collaborators], and every theorem
    holds for all of its instances.  The string helpers and the XML stream
    are small executable models, so that concrete loads can be run.

    State is passed explicitly: a read works on the master score, the
    stream and the read context; a load works on the master score and the
    process-wide image store.  Both carry the list of the calls made into
    collaborators, in program order, which is what the statements about
    "before" and "exactly one" are about. *)

From Stdlib Require Import Bool List String Ascii ZArith Lia.
Import ListNotations.
Local Open Scope string_scope.
Local Open Scope list_scope.
Local Open Scope Z_scope.

(** ** The type [int] *)

(** A C++ [int] is a 32-bit integer in two's complement.  It is modelled by
    the integer it stands for, and every operation brings its result back
    into the range of the type, as the two's-complement arithmetic of the
    machine does when a product or a sum overflows. *)
Module Int32.

Definition min_int : Z := - 2 ^ 31.
Definition max_int : Z := 2 ^ 31 - 1.

Definition wrap (z : Z) : Z := (z + 2 ^ 31) mod 2 ^ 32 - 2 ^ 31.

Definition add (a b : Z) : Z := wrap (a + b).
Definition mul (a b : Z) : Z := wrap (a * b).

End Int32.

(** ** Strings: [String::split] and [String::toInt] *)

Module Str.

(** Modelled from the spec: [version.split('.')] cuts the string at every
    separator and keeps empty parts, so the result always has one part more
    than the string has separators. *)
Fixpoint split (sep : ascii) (s : string) : list string :=
  match s with
  | EmptyString => [EmptyString]
  | String c r =>
      if Ascii.eqb c sep then EmptyString :: split sep r
      else match split sep r with
           | [] => [String c EmptyString]
           | p :: ps => String c p :: ps
           end
  end.

(** Number of occurrences of a character. *)
Fixpoint count (sep : ascii) (s : string) : nat :=
  match s with
  | EmptyString => 0%nat
  | String c r => ((if Ascii.eqb c sep then 1 else 0) + count sep r)%nat
  end.

Definition digitVal (base : Z) (c : ascii) : option Z :=
  let n := Z.of_nat (nat_of_ascii c) in
  let d :=
    if (48 <=? n) && (n <=? 57) then Some (n - 48)
    else if (97 <=? n) && (n <=? 122) then Some (n - 87)
    else if (65 <=? n) && (n <=? 90) then Some (n - 55)
    else None in
  match d with
  | Some v => if v <? base then Some v else None
  | None => None
  end.

Fixpoint digits (base acc : Z) (s : string) : option Z :=
  match s with
  | EmptyString => Some acc
  | String c r =>
      match digitVal base c with
      | Some d => digits base (acc * base + d) r
      | None => None
      end
  end.

(** The number an optionally signed numeral in the given base stands for;
    0 for a string that is not such a numeral in full. *)
Definition toIntBase (base : Z) (s : string) : Z :=
  match s with
  | String "-" r => match digits base 0 r with Some v => - v | None => 0 end
  | String "+" r => match digits base 0 r with Some v => v | None => 0 end
  | _ => match digits base 0 s with Some v => v | None => 0 end
  end.

(** Modelled from the spec: [String::toInt(ok, base)] reads an optionally
    signed number in the given base; a string that is not a number in full
    yields 0.  The result is an [int]: a numeral within the range of the
    type yields the number it stands for, and a longer one is brought into
    the range as a conversion to [int] does. *)
Definition toIntOfBase (base : Z) (s : string) : Z := Int32.wrap (toIntBase base s).

Definition toInt (s : string) : Z := toIntOfBase 10 s.

End Str.

(** ** The XML stream *)

Module Xml.

Inductive Token :=
| StartElement (name : string) (attributes : list (string * string))
| EndElement (name : string)
| Characters (text : string).

(** The payload of an XML sub-stream is represented by the token sequence
    the tokenizer reads from it. *)
Definition Data := list Token.

Inductive Error :=
| NoError
| CustomError
| NotWellFormedError
| PrematureEndOfDocumentError
| UnexpectedElementError.

Definition Error_eqb (a b : Error) : bool :=
  match a, b with
  | NoError, NoError | CustomError, CustomError
  | NotWellFormedError, NotWellFormedError
  | PrematureEndOfDocumentError, PrematureEndOfDocumentError
  | UnexpectedElementError, UnexpectedElementError => true
  | _, _ => false
  end.

(** The reader: the tokens still to come, the token it stands on, its error
    state and the document name used in diagnostics. *)
Record Reader := {
  pending : list Token;
  current : option Token;
  error : Error;
  errorString : string;
  docName : string
}.

Definition init (d : Data) : Reader :=
  {| pending := d; current := None; error := NoError;
     errorString := ""; docName := "" |}.

Definition setDocName (n : string) (e : Reader) : Reader :=
  {| pending := pending e; current := current e; error := error e;
     errorString := errorString e; docName := n |}.

Definition moveTo (cur : option Token) (rest : list Token) (e : Reader) : Reader :=
  {| pending := rest; current := cur; error := error e;
     errorString := errorString e; docName := docName e |}.

(** Modelled from the spec: [readNextStartElement] reads forward to the next
    start element inside the current element; it answers false when it meets
    the end of the current element or the end of the stream first. *)
Fixpoint scanStart (ts : list Token) : bool * option Token * list Token :=
  match ts with
  | [] => (false, None, [])
  | StartElement n a :: r => (true, Some (StartElement n a), r)
  | EndElement n :: r => (false, Some (EndElement n), r)
  | Characters _ :: r => scanStart r
  end.

Definition readNextStartElement (e : Reader) : bool * Reader :=
  match scanStart (pending e) with
  | (b, cur, rest) => (b, moveTo cur rest e)
  end.

(** Modelled from the spec: [skipCurrentElement] reads to the end of the
    current element, passing over its children. *)
Fixpoint skipLoop (depth : nat) (cur : option Token) (ts : list Token)
  : option Token * list Token :=
  match depth with
  | O => (cur, ts)
  | S d =>
      match ts with
      | [] => (None, [])
      | StartElement n a :: r => skipLoop (S (S d)) (Some (StartElement n a)) r
      | EndElement n :: r => skipLoop d (Some (EndElement n)) r
      | Characters t :: r => skipLoop (S d) (Some (Characters t)) r
      end
  end.

Definition skipCurrentElement (e : Reader) : Reader :=
  match skipLoop 1 (current e) (pending e) with
  | (cur, rest) => moveTo cur rest e
  end.

(** [XmlReader::unknown] reports the tag and skips the element. *)
Definition unknown (e : Reader) : Reader := skipCurrentElement e.

Definition name (e : Reader) : string :=
  match current e with
  | Some (StartElement n _) => n
  | Some (EndElement n) => n
  | _ => ""
  end.

Fixpoint lookup (k : string) (l : list (string * string)) : string :=
  match l with
  | [] => ""
  | (k', v) :: r => if String.eqb k k' then v else lookup k r
  end.

(** [attribute] answers the empty string for an attribute that is absent. *)
Definition attribute (e : Reader) (k : string) : string :=
  match current e with
  | Some (StartElement _ a) => lookup k a
  | _ => ""
  end.

(** Modelled from the spec: [readText] collects the text nodes of the current
    element and leaves the reader on its end element. *)
Fixpoint textLoop (acc : string) (ts : list Token)
  : string * option Token * list Token :=
  match ts with
  | [] => (acc, None, [])
  | Characters t :: r => textLoop (acc ++ t)%string r
  | EndElement n :: r => (acc, Some (EndElement n), r)
  | StartElement n a :: r => textLoop acc r
  end.

Definition readText (e : Reader) : string * Reader :=
  match textLoop "" (pending e) with
  | (t, cur, rest) => (t, moveTo cur rest e)
  end.

Definition readInt (base : Z) (e : Reader) : Z * Reader :=
  match readText e with
  | (t, e') => (Str.toIntOfBase base t, e')
  end.

Definition remaining (e : Reader) : nat := List.length (pending e).

End Xml.

(** ** Results *)

(** The error taxonomy of the engraving module, as far as this file uses it. *)
Inductive Err :=
| NoError
| FileOpenError
| FileTooNew
| FileTooOld
| FileOld300Format
| FileCorrupted
| FileCriticallyCorrupted
| FileBadFormat.

Record Ret := { code : Err; text : string }.

Definition make_ret (e : Err) : Ret := {| code := e; text := "" |}.
Definition make_ret_text (e : Err) (t : string) : Ret := {| code := e; text := t |}.
Definition make_ok : Ret := make_ret NoError.

(** What a call can come to.  [OutOfRange] is the access [sl[1]] past the end
    of the split list, which C++ leaves undefined; [OutOfFuel] is the loop
    bound of the model, reached only if a collaborator hands back a stream
    longer than the one it was given. *)
Inductive Outcome (A : Type) :=
| Returned (a : A)
| OutOfRange
| OutOfFuel.

Arguments Returned {A} a.
Arguments OutOfRange {A}.
Arguments OutOfFuel {A}.

Definition omap {A B : Type} (f : A -> B) (o : Outcome A) : Outcome B :=
  match o with
  | Returned a => Returned (f a)
  | OutOfRange => OutOfRange
  | OutOfFuel => OutOfFuel
  end.

(** ** Calls into collaborators, in program order *)

Inductive ReaderKind := Read114 | Read206 | Read302 | Read400.

Inductive Call :=
| CallStyleRead
| CallChordListRead
| CallImageAdd (name : string)
| CallHookSetupDefaultStyle
| CallReader (k : ReaderKind)
| CallCheckChordList
| CallReadScore400
| CallCreateScore (name : string)
| CallSetupDefaultStyle (name : string)
| CallExcerptStyleRead (name : string)
| CallRead400 (name : string)
| CallLinkMeasures (name : string)
| CallAddExcerpt (name : string)
| CallAudioSetData.

Definition isReader (c : Call) : bool :=
  match c with CallReader _ => true | _ => false end.

Definition isHook (c : Call) : bool :=
  match c with CallHookSetupDefaultStyle => true | _ => false end.

Definition ByteArray := list Byte.byte.

Definition TracksMap := list (Z * Z).

(** The package reader [MscReader]; it is passed by const reference. *)
Record MscReader := {
  isOpened : bool;
  filePath : string;
  readStyleFile : ByteArray;
  readChordListFile : ByteArray;
  imageFileNames : list string;
  readImageFile : string -> ByteArray;
  readScoreFile : Xml.Data;
  excerptNames : list string;
  readExcerptStyleFile : string -> ByteArray;
  readExcerptFile : string -> Xml.Data;
  readAudioFile : ByteArray
}.

(** [compat::ReadStyleHook], built from the score data and the document
    name; the score it is bound to is the score being read. *)
Record ReadStyleHook := { hook_data : Xml.Data; hook_docName : string }.

(** ** The element model and the data of a load *)

(** The element model: style and chord-list objects, the content of a score,
    the process-wide image store, the compatibility settings and the link
    table are opaque to the loader. *)
Class ElementModel := {
  Style : Type;
  ChordList : Type;
  Body : Type;
  ImageStore : Type;
  SettingsCompat : Type;
  Links : Type;
  noLinks : Links;
  noSettings : SettingsCompat
}.

Section Data.

Context {EM : ElementModel}.

(** A part score as [MasterScore::createScore] makes it. *)
Record Score := { part_style : Style; part_body : Body }.

Record Excerpt := {
  excerptScore : option Score;
  excerptName : string;
  tracksMapping : TracksMap
}.

Record MasterScore := {
  mscVersion : Z;
  mscoreVersion : string;
  mscoreRevision : Z;
  style : Style;
  chordList : ChordList;
  excerptsChanged : bool;
  autosaveDirty : bool;
  excerpts : list Excerpt;
  audio : option ByteArray;
  fileName : string;
  body : Body
}.

Definition setMscVersion (v : Z) (m : MasterScore) : MasterScore :=
  {| mscVersion := v; mscoreVersion := mscoreVersion m;
     mscoreRevision := mscoreRevision m; style := style m;
     chordList := chordList m; excerptsChanged := excerptsChanged m;
     autosaveDirty := autosaveDirty m; excerpts := excerpts m;
     audio := audio m; fileName := fileName m; body := body m |}.

Definition setMscoreVersion (t : string) (m : MasterScore) : MasterScore :=
  {| mscVersion := mscVersion m; mscoreVersion := t;
     mscoreRevision := mscoreRevision m; style := style m;
     chordList := chordList m; excerptsChanged := excerptsChanged m;
     autosaveDirty := autosaveDirty m; excerpts := excerpts m;
     audio := audio m; fileName := fileName m; body := body m |}.

Definition setMscoreRevision (r : Z) (m : MasterScore) : MasterScore :=
  {| mscVersion := mscVersion m; mscoreVersion := mscoreVersion m;
     mscoreRevision := r; style := style m;
     chordList := chordList m; excerptsChanged := excerptsChanged m;
     autosaveDirty := autosaveDirty m; excerpts := excerpts m;
     audio := audio m; fileName := fileName m; body := body m |}.

Definition setStyle (s : Style) (m : MasterScore) : MasterScore :=
  {| mscVersion := mscVersion m; mscoreVersion := mscoreVersion m;
     mscoreRevision := mscoreRevision m; style := s;
     chordList := chordList m; excerptsChanged := excerptsChanged m;
     autosaveDirty := autosaveDirty m; excerpts := excerpts m;
     audio := audio m; fileName := fileName m; body := body m |}.

Definition setChordList (c : ChordList) (m : MasterScore) : MasterScore :=
  {| mscVersion := mscVersion m; mscoreVersion := mscoreVersion m;
     mscoreRevision := mscoreRevision m; style := style m;
     chordList := c; excerptsChanged := excerptsChanged m;
     autosaveDirty := autosaveDirty m; excerpts := excerpts m;
     audio := audio m; fileName := fileName m; body := body m |}.

Definition setExcerptsChanged (b : bool) (m : MasterScore) : MasterScore :=
  {| mscVersion := mscVersion m; mscoreVersion := mscoreVersion m;
     mscoreRevision := mscoreRevision m; style := style m;
     chordList := chordList m; excerptsChanged := b;
     autosaveDirty := autosaveDirty m; excerpts := excerpts m;
     audio := audio m; fileName := fileName m; body := body m |}.

Definition setAutosaveDirty (b : bool) (m : MasterScore) : MasterScore :=
  {| mscVersion := mscVersion m; mscoreVersion := mscoreVersion m;
     mscoreRevision := mscoreRevision m; style := style m;
     chordList := chordList m; excerptsChanged := excerptsChanged m;
     autosaveDirty := b; excerpts := excerpts m;
     audio := audio m; fileName := fileName m; body := body m |}.

(** [masterScore->audio()->setData(d)]. *)
Definition setAudioData (d : ByteArray) (m : MasterScore) : MasterScore :=
  {| mscVersion := mscVersion m; mscoreVersion := mscoreVersion m;
     mscoreRevision := mscoreRevision m; style := style m;
     chordList := chordList m; excerptsChanged := excerptsChanged m;
     autosaveDirty := autosaveDirty m; excerpts := excerpts m;
     audio := Some d; fileName := fileName m; body := body m |}.

Definition setPartStyle (s : Style) (p : Score) : Score :=
  {| part_style := s; part_body := part_body p |}.

(** The read context.  Its back-reference to the score it belongs to is not
    an ownership edge and is left out. *)
Record ReadContext := {
  ignoreVersionError : bool;
  links : Links;
  tracks : TracksMap;
  settingCompat : SettingsCompat
}.

Definition newReadContext : ReadContext :=
  {| ignoreVersionError := false; links := noLinks; tracks := [];
     settingCompat := noSettings |}.

Definition setIgnoreVersionError (b : bool) (c : ReadContext) : ReadContext :=
  {| ignoreVersionError := b; links := links c; tracks := tracks c;
     settingCompat := settingCompat c |}.

(** Modelled from the spec: [initLinks] seeds the link table of a part's
    context from the master's context. *)
Definition initLinks (masterCtx c : ReadContext) : ReadContext :=
  {| ignoreVersionError := ignoreVersionError c; links := links masterCtx;
     tracks := tracks c; settingCompat := settingCompat c |}.

Definition LegacyReader : Type :=
  MasterScore -> Xml.Reader -> ReadContext ->
  Err * MasterScore * Xml.Reader * ReadContext.

End Data.

(** ** Collaborators *)

(** What the loader calls and does not implement: the parsers of the style
    and the chord list, the image store, the style hook (its full set-up on
    the master and its static set-up on a part), the element readers of the
    four format generations, the part factory, the excerpt linker and
    [addExcerpt]; with them the switches [MScore::noImages] and
    [MScore::testMode] and the highest format version this build
    understands.  What [read400] returns for a part is dropped by its
    caller. *)
Class Collaborators {EM : ElementModel} := {
  styleRead : Style -> ByteArray -> Style;
  chordListRead : ChordList -> ByteArray -> ChordList;
  imageStoreAdd : ImageStore -> string -> ByteArray -> ImageStore;
  hookSetupDefaultStyle : ReadStyleHook -> MasterScore -> MasterScore;
  setupDefaultStyle : Score -> Score;
  checkChordList : MasterScore -> MasterScore;
  createScore : MasterScore -> Score;
  linkMeasures : Score -> MasterScore -> Score * MasterScore;
  addExcerpt : MasterScore -> Excerpt -> MasterScore;
  read114 : LegacyReader;
  read206 : LegacyReader;
  read302 : LegacyReader;
  readScore400 :
    MasterScore -> Xml.Reader -> ReadContext ->
    bool * MasterScore * Xml.Reader * ReadContext;
  read400 :
    Score -> Xml.Reader -> ReadContext ->
    Err * Score * Xml.Reader * ReadContext;
  noImages : bool;
  testMode : bool;
  MSCVERSION : Z
}.

(** ** The loader *)

Section Loader.

Context {EM : ElementModel} {K : Collaborators}.

(** *** State of a read *)

Record ReadState := {
  score : MasterScore;
  xml : Xml.Reader;
  ctx : ReadContext;
  calls : list Call
}.

Definition withScore (m : MasterScore) (st : ReadState) : ReadState :=
  {| score := m; xml := xml st; ctx := ctx st; calls := calls st |}.

Definition withXml (e : Xml.Reader) (st : ReadState) : ReadState :=
  {| score := score st; xml := e; ctx := ctx st; calls := calls st |}.

Definition logged (c : Call) (st : ReadState) : ReadState :=
  {| score := score st; xml := xml st; ctx := ctx st;
     calls := calls st ++ [c] |}.

(** *** [ScoreReader::doRead] *)

Fixpoint doRead_loop (fuel : nat) (st : ReadState) : Outcome (Err * ReadState) :=
  match fuel with
  | O => OutOfFuel
  | S fuel' =>
      match Xml.readNextStartElement (xml st) with
      | (false, e) => Returned (NoError, withXml e st)
      | (true, e) =>
          let tag := Xml.name e in
          if String.eqb tag "programVersion" then
            match Xml.readText e with
            | (t, e') =>
                doRead_loop fuel' (withXml e' (withScore (setMscoreVersion t (score st)) st))
            end
          else if String.eqb tag "programRevision" then
            match Xml.readInt 16 e with
            | (r, e') =>
                doRead_loop fuel' (withXml e' (withScore (setMscoreRevision r (score st)) st))
            end
          else if String.eqb tag "Score" then
            match readScore400 (score st) e (ctx st) with
            | (ok, m', e', c') =>
                let st' := {| score := m'; xml := e'; ctx := c';
                              calls := calls st ++ [CallReadScore400] |} in
                if negb ok then
                  if Xml.Error_eqb (Xml.error e') Xml.CustomError
                  then Returned (FileCriticallyCorrupted, st')
                  else Returned (FileBadFormat, st')
                else doRead_loop fuel' st'
            end
          else if String.eqb tag "Revision" then
            doRead_loop fuel' (withXml (Xml.skipCurrentElement e) st)
          else
            doRead_loop fuel' (withXml e st)
      end
  end.

Definition doRead (st : ReadState) : Outcome (Err * ReadState) :=
  doRead_loop (S (Xml.remaining (xml st))) st.

(** *** [ScoreReader::read] *)

(** Lines 160-170: the version acceptance checks. *)
Definition versionError (st : ReadState) : option Err :=
  if negb (ignoreVersionError (ctx st)) then
    if mscVersion (score st) >? MSCVERSION then Some FileTooNew
    else if mscVersion (score st) <? 114 then Some FileTooOld
    else if mscVersion (score st) =? 300 then Some FileOld300Format
    else None
  else None.

(** Lines 177-179: the style baseline. *)
Definition applyStyleHook (styleHook : option ReadStyleHook) (st : ReadState) : ReadState :=
  match styleHook with
  | Some h =>
      if (mscVersion (score st) <? 400) || testMode
      then logged CallHookSetupDefaultStyle (withScore (hookSetupDefaultStyle h (score st)) st)
      else st
  | None => st
  end.

Definition callLegacy (k : ReaderKind) (r : LegacyReader) (st : ReadState)
  : Outcome (Err * ReadState) :=
  match r (score st) (xml st) (ctx st) with
  | (err, m', e', c') =>
      Returned (err, {| score := m'; xml := e'; ctx := c';
                        calls := calls st ++ [CallReader k] |})
  end.

(** Lines 181-194: the choice of the reader. *)
Definition runReader (st : ReadState) : Outcome (Err * ReadState) :=
  if mscVersion (score st) <=? 114 then callLegacy Read114 read114 st
  else if mscVersion (score st) <=? 207 then callLegacy Read206 read206 st
  else if (mscVersion (score st) <? 400) || testMode then callLegacy Read302 read302 st
  else
    doRead (logged (CallReader Read400)
              (logged CallCheckChordList (withScore (checkChordList (score st)) st))).

(** Lines 196-201: the flags of a freshly read score, and the result. *)
Definition finishRead (r : Err * ReadState) : Ret * ReadState :=
  match r with
  | (err, st) =>
      (make_ret err,
       withScore (setAutosaveDirty false (setExcerptsChanged false (score st))) st)
  end.

(** Lines 156-158: the value given to [setMscVersion], or nothing when the
    split of the version attribute has no second part to index.  The
    product and the sum are those of [int]: a version too long for the
    type comes out wrapped, and it is the wrapped value that is stored and
    tested. *)
Definition declaredVersion (e : Xml.Reader) : option Z :=
  let version := Xml.attribute e "version" in
  let sl := Str.split "." version in
  match nth_error sl 0, nth_error sl 1 with
  | Some major, Some minor =>
      Some (Int32.add (Int32.mul (Str.toInt major) 100) (Str.toInt minor))
  | _, _ => None
  end.

(** Lines 156-201: the body run on the [museScore] element. *)
Definition readRoot (styleHook : option ReadStyleHook) (st : ReadState)
  : Outcome (Ret * ReadState) :=
  match declaredVersion (xml st) with
  | Some v =>
      let st1 := withScore (setMscVersion v (score st)) st in
      match versionError st1 with
      | Some err => Returned (make_ret err, st1)
      | None => omap finishRead (runReader (applyStyleHook styleHook st1))
      end
  | None => OutOfRange
  end.

Fixpoint read_loop (fuel : nat) (styleHook : option ReadStyleHook) (st : ReadState)
  : Outcome (Ret * ReadState) :=
  match fuel with
  | O => OutOfFuel
  | S fuel' =>
      match Xml.readNextStartElement (xml st) with
      | (true, e) =>
          if String.eqb (Xml.name e) "museScore" then readRoot styleHook (withXml e st)
          else read_loop fuel' styleHook (withXml (Xml.unknown e) st)
      | (false, e) =>
          Returned (make_ret_text FileCorrupted (Xml.errorString e), withXml e st)
      end
  end.

Definition read (styleHook : option ReadStyleHook) (st : ReadState)
  : Outcome (Ret * ReadState) :=
  read_loop (S (Xml.remaining (xml st))) styleHook st.

(** *** [ScoreReader::loadMscz] *)

(** What a load works on: the master score, the process-wide image store,
    the settings handed back to the caller and the calls made so far. *)
Record World := {
  master : MasterScore;
  imageStore : ImageStore;
  settingsCompat : SettingsCompat;
  log : list Call
}.

Definition withMaster (m : MasterScore) (c : list Call) (w : World) : World :=
  {| master := m; imageStore := imageStore w;
     settingsCompat := settingsCompat w; log := log w ++ c |}.

(** Lines 54-62. *)
Definition readStyle (mscReader : MscReader) (w : World) : World :=
  match readStyleFile mscReader with
  | [] => w
  | styleData =>
      withMaster (setStyle (styleRead (style (master w)) styleData) (master w))
        [CallStyleRead] w
  end.

(** Lines 64-72. *)
Definition readChordList (mscReader : MscReader) (w : World) : World :=
  match readChordListFile mscReader with
  | [] => w
  | chordListData =>
      withMaster
        (setChordList (chordListRead (chordList (master w)) chordListData) (master w))
        [CallChordListRead] w
  end.

Definition addImage (mscReader : MscReader) (w : World) (name : string) : World :=
  {| master := master w;
     imageStore := imageStoreAdd (imageStore w) name (readImageFile mscReader name);
     settingsCompat := settingsCompat w;
     log := log w ++ [CallImageAdd name] |}.

(** Lines 74-82. *)
Definition readImages (mscReader : MscReader) (w : World) : World :=
  if negb noImages then fold_left (addImage mscReader) (imageFileNames mscReader) w
  else w.

Definition excerptCalls (excerptName : string) : list Call :=
  [CallCreateScore excerptName; CallSetupDefaultStyle excerptName;
   CallExcerptStyleRead excerptName; CallRead400 excerptName;
   CallLinkMeasures excerptName; CallAddExcerpt excerptName].

(** Lines 106-136, one turn of the loop.  The excerpt holds a pointer to the
    part score, so it sees the part as the later statements leave it. *)
Definition readExcerpt (mscReader : MscReader) (masterScoreCtx : ReadContext)
  (w : World) (excerptName : string) : World :=
  let partScore := createScore (master w) in
  let partScore := setupDefaultStyle partScore in
  let excerptStyleData := readExcerptStyleFile mscReader excerptName in
  let partScore := setPartStyle (styleRead (part_style partScore) excerptStyleData) partScore in
  let excerptData := readExcerptFile mscReader excerptName in
  let c := initLinks masterScoreCtx newReadContext in
  let e := Xml.setDocName excerptName (Xml.init excerptData) in
  match read400 partScore e c with
  | (_, partScore, e, c) =>
      match linkMeasures partScore (master w) with
      | (partScore, m) =>
          let ex := {| excerptScore := Some partScore;
                       excerptName := excerptName;
                       tracksMapping := tracks c |} in
          withMaster (addExcerpt m ex) (excerptCalls excerptName) w
      end
  end.

(** Lines 103-137. *)
Definition readExcerpts (mscReader : MscReader) (masterScoreCtx : ReadContext)
  (w : World) : World :=
  if mscVersion (master w) >=? 400
  then fold_left (readExcerpt mscReader masterScoreCtx) (excerptNames mscReader) w
  else w.

(** Lines 139-145. *)
Definition readAudio (mscReader : MscReader) (w : World) : World :=
  match audio (master w) with
  | Some _ =>
      withMaster (setAudioData (readAudioFile mscReader) (master w)) [CallAudioSetData] w
  | None => w
  end.

Definition moveSettings (c : ReadContext) (w : World) : World :=
  {| master := master w; imageStore := imageStore w;
     settingsCompat := settingCompat c; log := log w |}.

(** Lines 52-82: the side files, read before the score. *)
Definition readSideFiles (mscReader : MscReader) (w : World) : World :=
  readImages mscReader (readChordList mscReader (readStyle mscReader w)).

(** Lines 84-100: the state handed to [read] and the style hook. *)
Definition scoreReadState (mscReader : MscReader) (ignore : bool) (w : World)
  : ReadState :=
  {| score := master w;
     xml := Xml.setDocName (fileName (master w)) (Xml.init (readScoreFile mscReader));
     ctx := setIgnoreVersionError ignore newReadContext;
     calls := log w |}.

Definition scoreStyleHook (mscReader : MscReader) (w : World) : ReadStyleHook :=
  {| hook_data := readScoreFile mscReader; hook_docName := fileName (master w) |}.

(** Lines 103-149: what follows the call of [read]. *)
Definition afterRead (mscReader : MscReader) (w : World) (st : ReadState) : World :=
  let w1 := {| master := score st; imageStore := imageStore w;
               settingsCompat := settingsCompat w; log := calls st |} in
  moveSettings (ctx st) (readAudio mscReader (readExcerpts mscReader (ctx st) w1)).

(** Lines 41-150.  The guard object [ScoreLoad] and the tracing macro have
    no effect on what is modelled here. *)
Definition loadMscz (w : World) (mscReader : MscReader) (ignore : bool)
  : Outcome (Ret * World) :=
  if negb (isOpened mscReader) then
    Returned (make_ret_text FileOpenError (filePath mscReader), w)
  else
    let w1 := readSideFiles mscReader w in
    match read (Some (scoreStyleHook mscReader w1)) (scoreReadState mscReader ignore w1) with
    | Returned (ret, st) => Returned (ret, afterRead mscReader w1 st)
    | OutOfRange => OutOfRange
    | OutOfFuel => OutOfFuel
    end.

End Loader.

(** ** Vocabulary of the properties *)

Section Vocabulary.

Context {EM : ElementModel} {K : Collaborators}.

(** [FindsRoot e e1]: the loop of [read], started on [e], comes to stand on
    a [museScore] start element in [e1], after skipping the elements that
    have another name. *)
Inductive FindsRoot : Xml.Reader -> Xml.Reader -> Prop :=
| FindsRoot_here e e1 :
    Xml.readNextStartElement e = (true, e1) ->
    Xml.name e1 = "museScore" ->
    FindsRoot e e1
| FindsRoot_skip e e1 e2 :
    Xml.readNextStartElement e = (true, e1) ->
    Xml.name e1 <> "museScore" ->
    FindsRoot (Xml.unknown e1) e2 ->
    FindsRoot e e2.

(** The element reader does not lengthen the stream: the tokenizer is
    forward-only. *)
Definition ForwardOnly : Prop :=
  forall m e c ok m' e' c',
    readScore400 m e c = (ok, m', e', c') ->
    (Xml.remaining e' <= Xml.remaining e)%nat.

(** The reader the specification assigns to a version: the first bucket
    that matches. *)
Definition bucket (v : Z) : ReaderKind :=
  if v <=? 114 then Read114
  else if v <=? 207 then Read206
  else if (v <? 400) || testMode then Read302
  else Read400.

Definition readerCalls (k : ReaderKind) (n : nat) : list Call :=
  match k with
  | Read400 => CallCheckChordList :: CallReader Read400 :: repeat CallReadScore400 n
  | _ => [CallReader k]
  end.

(** The style hook leaves the version of the score alone. *)
Definition HookKeepsVersion : Prop :=
  forall h m, mscVersion (hookSetupDefaultStyle h m) = mscVersion m.

(** A field of the master score that the excerpt linker and [addExcerpt]
    leave as it is. *)
Definition ExcerptStepKeeps {A : Type} (f : MasterScore -> A) : Prop :=
  (forall p m, f (snd (linkMeasures p m)) = f m) /\
  (forall m ex, f (addExcerpt m ex) = f m).

Definition audioCalls (l : list Call) : Prop := l = [] \/ l = [CallAudioSetData].

(** [addExcerpt] appends the excerpt to those the master owns. *)
Definition AddExcerptAppends : Prop :=
  forall m ex, excerpts (addExcerpt m ex) = excerpts m ++ [ex].

(** The excerpt linker does not change which excerpts the master owns. *)
Definition LinkMeasuresKeepsExcerpts : Prop :=
  forall p m, excerpts (snd (linkMeasures p m)) = excerpts m.

(** An excerpt whose track mapping is the one left in the parse context of
    its part: the context that [read400] handed back for the content stream
    of the excerpt, seeded with the links of the master's context. *)
Definition ReadFromPart (mscReader : MscReader) (masterScoreCtx : ReadContext)
  (ex : Excerpt) : Prop :=
  exists partScore c,
    links c = links masterScoreCtx /\
    tracksMapping ex =
    tracks (snd (read400 partScore
                   (Xml.setDocName (excerptName ex)
                      (Xml.init (readExcerptFile mscReader (excerptName ex))))
                   c)).

(** The calls the three side-file steps make. *)
Definition sideFileCalls (mscReader : MscReader) : list Call :=
  match readStyleFile mscReader with [] => [] | _ => [CallStyleRead] end
  ++ match readChordListFile mscReader with [] => [] | _ => [CallChordListRead] end
  ++ (if noImages then [] else map CallImageAdd (imageFileNames mscReader)).

Definition styleOfFile (mscReader : MscReader) (s : Style) : Style :=
  match readStyleFile mscReader with
  | [] => s
  | styleData => styleRead s styleData
  end.

Definition chordListOfFile (mscReader : MscReader) (c : ChordList) : ChordList :=
  match readChordListFile mscReader with
  | [] => c
  | chordListData => chordListRead c chordListData
  end.

Definition imagesOfFiles (mscReader : MscReader) (s : ImageStore) : ImageStore :=
  if noImages then s
  else fold_left (fun s name => imageStoreAdd s name (readImageFile mscReader name))
         (imageFileNames mscReader) s.

(** The children of a root element that starts with an element unknown to
    [doRead], followed by the score. *)
Definition unrecognizedThenScore (scoreAttributes : list (string * string))
  : Xml.Data :=
  [Xml.StartElement "futureTag" []; Xml.EndElement "futureTag";
   Xml.StartElement "Score" scoreAttributes; Xml.EndElement "Score"].

(** The score a reader hands back. *)
Definition scoreOf {A : Type}
  (r : A * MasterScore * Xml.Reader * ReadContext) : MasterScore :=
  snd (fst (fst r)).

(** A field of the master score that the style hook, [checkChordList] and
    the four readers leave as it is. *)
Definition ReadersKeep {A : Type} (f : MasterScore -> A) : Prop :=
  (forall h m, f (hookSetupDefaultStyle h m) = f m) /\
  (forall m, f (checkChordList m) = f m) /\
  (forall m e c, f (scoreOf (read114 m e c)) = f m) /\
  (forall m e c, f (scoreOf (read206 m e c)) = f m) /\
  (forall m e c, f (scoreOf (read302 m e c)) = f m) /\
  (forall m e c, f (scoreOf (readScore400 m e c)) = f m).

(** A field that the setters used by [read] and [doRead] after the version
    is set do not write. *)
Definition NotWrittenByRead {A : Type} (f : MasterScore -> A) : Prop :=
  (forall t m, f (setMscoreVersion t m) = f m) /\
  (forall r m, f (setMscoreRevision r m) = f m) /\
  (forall b m, f (setExcerptsChanged b m) = f m) /\
  (forall b m, f (setAutosaveDirty b m) = f m).

(** The flags property as the specification words it: after a load that
    got past the open check, whatever it reports, both flags are false. *)
Definition FlagsClearedAfterLoad (w : World) (mscReader : MscReader)
  (ignore : bool) : Prop :=
  forall ret w',
    loadMscz w mscReader ignore = Returned (ret, w') ->
    code ret <> FileOpenError ->
    excerptsChanged (master w') = false /\ autosaveDirty (master w') = false.

(** [FindsNoRoot e e']: the loop of [read], started on [e], comes to the end
    of the stream, or of the enclosing element, in [e'] without having met
    a [museScore] start element. *)
Inductive FindsNoRoot : Xml.Reader -> Xml.Reader -> Prop :=
| FindsNoRoot_end e e' :
    Xml.readNextStartElement e = (false, e') ->
    FindsNoRoot e e'
| FindsNoRoot_skip e e1 e' :
    Xml.readNextStartElement e = (true, e1) ->
    Xml.name e1 <> "museScore" ->
    FindsNoRoot (Xml.unknown e1) e' ->
    FindsNoRoot e e'.

(** The calls [read] and [doRead] make. *)
Definition isReadCall (c : Call) : bool :=
  match c with
  | CallHookSetupDefaultStyle | CallReader _ | CallCheckChordList
  | CallReadScore400 => true
  | _ => false
  end.

(** A stream in which no element named [Score] starts. *)
Definition isScoreStart (t : Xml.Token) : bool :=
  match t with
  | Xml.StartElement n _ => String.eqb n "Score"
  | _ => false
  end.

Definition noScoreElement (ts : list Xml.Token) : bool :=
  forallb (fun t => negb (isScoreStart t)) ts.

(** The result property as the specification words it, for every package:
    what [loadMscz] returns is what the call of [read] on the main score
    stream returns. *)
Definition ReturnsReadResult (w : World) (mscReader : MscReader)
  (ignore : bool) : Prop :=
  let w1 := readSideFiles mscReader w in
  omap fst (loadMscz w mscReader ignore)
  = omap fst (read (Some (scoreStyleHook mscReader w1))
                (scoreReadState mscReader ignore w1)).

(** The hook property as the specification words it: whenever the root
    declares a version, the full set-up of the hook is among the calls of
    [read] exactly if a hook was supplied and the version is below 400 or
    test mode is on. *)
Definition HookCalledIffBelow400 (hook : option ReadStyleHook) (st : ReadState)
  : Prop :=
  forall e1 v ret st',
    FindsRoot (xml st) e1 ->
    declaredVersion e1 = Some v ->
    read hook st = Returned (ret, st') ->
    exists l,
      calls st' = calls st ++ l /\
      (In CallHookSetupDefaultStyle l <->
       hook <> None /\ (v < 400 \/ testMode = true)).



End Vocabulary.

(** ** A concrete element model, to run loads *)

Module Demo.

Definition model : ElementModel :=
  {| Style := list ByteArray;
     ChordList := list ByteArray;
     Body := list string;
     ImageStore := list (string * ByteArray);
     SettingsCompat := list string;
     Links := list Z;
     noLinks := [];
     noSettings := [] |}.

Definition MScore : Type := @MasterScore model.
Definition PScore : Type := @Score model.
Definition Ctx : Type := @ReadContext model.

Definition appendExcerpt (m : MScore) (ex : @Excerpt model) : MScore :=
  {| mscVersion := mscVersion m; mscoreVersion := mscoreVersion m;
     mscoreRevision := mscoreRevision m; style := style m;
     chordList := chordList m; excerptsChanged := excerptsChanged m;
     autosaveDirty := autosaveDirty m;
     excerpts := excerpts m ++ [ex];
     audio := audio m; fileName := fileName m; body := body m |}.

(** The legacy readers of the demo accept everything and skip the element. *)
Definition legacy (m : MScore) (e : Xml.Reader) (c : Ctx)
  : Err * MScore * Xml.Reader * Ctx :=
  (NoError, m, Xml.skipCurrentElement e, c).

(** The element reader of the demo refuses a [Score] element carrying
    [ok="no"] and otherwise skips it. *)
Definition scoreUnlessMarked (m : MScore) (e : Xml.Reader) (c : Ctx)
  : bool * MScore * Xml.Reader * Ctx :=
  if String.eqb (Xml.attribute e "ok") "no" then (false, m, e, c)
  else (true, m, Xml.skipCurrentElement e, c).

(** The part reader of the demo reports a bad format and leaves one track
    in the context. *)
Definition partWithOneTrack (p : PScore) (e : Xml.Reader) (c : Ctx)
  : Err * PScore * Xml.Reader * Ctx :=
  (FileBadFormat, p, e,
   {| ignoreVersionError := ignoreVersionError c; links := links c;
      tracks := [(0, 0)]; settingCompat := settingCompat c |}).

Definition collaborators : @Collaborators model :=
  {| styleRead := fun (s : @Style model) d => s ++ [d];
     chordListRead := fun (c : @ChordList model) d => c ++ [d];
     imageStoreAdd := fun (s : @ImageStore model) n d => s ++ [(n, d)];
     hookSetupDefaultStyle := fun _ (m : MScore) => setStyle ([] : @Style model) m;
     setupDefaultStyle := fun p => p;
     checkChordList := fun m => m;
     createScore := fun _ => {| part_style := ([] : @Style model);
                               part_body := ([] : @Body model) |};
     linkMeasures := fun p m => (p, m);
     addExcerpt := appendExcerpt;
     read114 := legacy;
     read206 := legacy;
     read302 := legacy;
     readScore400 := scoreUnlessMarked;
     read400 := partWithOneTrack;
     noImages := false;
     testMode := false;
     MSCVERSION := 400 |}.

Definition State : Type := @ReadState model.
Definition W : Type := @World model.

Definition run_doRead : State -> Outcome (Err * State) :=
  @doRead model collaborators.

Definition run_read : option ReadStyleHook -> State -> Outcome (Ret * State) :=
  @read model collaborators.

Definition run_loadMscz : W -> MscReader -> bool -> Outcome (Ret * W) :=
  @loadMscz model collaborators.

(** A new master score: nothing read yet, marked for autosave. *)
Definition master0 : MScore :=
  {| mscVersion := 400; mscoreVersion := ""; mscoreRevision := 0;
     style := ([] : @Style model); chordList := ([] : @ChordList model);
     excerptsChanged := false;
     autosaveDirty := true; excerpts := []; audio := None;
     fileName := "demo.mscz"; body := ([] : @Body model) |}.

Definition world0 : W :=
  {| master := master0; imageStore := ([] : @ImageStore model);
     settingsCompat := ([] : @SettingsCompat model); log := [] |}.

Definition scoreFile (version : string) (children : Xml.Data) : Xml.Data :=
  Xml.StartElement "museScore" [("version", version)]
    :: children ++ [Xml.EndElement "museScore"].

Definition package (version : string) (children : Xml.Data)
  (parts : list string) : MscReader :=
  {| isOpened := true; filePath := "demo.mscz";
     readStyleFile := []; readChordListFile := [];
     imageFileNames := []; readImageFile := fun _ => [];
     readScoreFile := scoreFile version children;
     excerptNames := parts;
     readExcerptStyleFile := fun _ => [];
     readExcerptFile := fun _ => [];
     readAudioFile := [] |}.

Definition state0 (version : string) (children : Xml.Data) (ignore : bool) : State :=
  scoreReadState (package version children []) ignore world0.


Definition hook0 (version : string) (children : Xml.Data) : ReadStyleHook :=
  scoreStyleHook (package version children []) world0.

Definition oneScore : Xml.Data :=
  [Xml.StartElement "Score" []; Xml.EndElement "Score"].

(** The reader of the main score stream once it stands on the root. *)
Definition atRoot (version : string) (children : Xml.Data) : Xml.Reader :=
  snd (Xml.readNextStartElement (xml (state0 version children false))).

(** A package whose score stream is given token by token. *)
Definition packageOf (scoreData : Xml.Data) (parts : list string) : MscReader :=
  {| isOpened := true; filePath := "demo.mscz";
     readStyleFile := []; readChordListFile := [];
     imageFileNames := []; readImageFile := fun _ => [];
     readScoreFile := scoreData;
     excerptNames := parts;
     readExcerptStyleFile := fun _ => [];
     readExcerptFile := fun _ => [];
     readAudioFile := [Byte.x07] |}.

(** A stream whose only top-level element is not a score. *)
Definition foreignFile : Xml.Data :=
  [Xml.StartElement "html" []; Xml.Characters "text"; Xml.EndElement "html"].

(** A world whose master already holds an audio object. *)
Definition worldWithAudio : W :=
  {| master := setAudioData [] master0; imageStore := ([] : @ImageStore model);
     settingsCompat := (["kept"] : @SettingsCompat model); log := [] |}.

(** The children of a root without a score: program version and revision,
    and a revision element with content. *)
Definition programOnly : Xml.Data :=
  [Xml.StartElement "programVersion" []; Xml.Characters "4.0.0";
   Xml.EndElement "programVersion";
   Xml.StartElement "programRevision" []; Xml.Characters "1f";
   Xml.EndElement "programRevision";
   Xml.StartElement "Revision" []; Xml.StartElement "date" [];
   Xml.EndElement "date"; Xml.EndElement "Revision";
   Xml.EndElement "museScore"].

(** A read state standing inside the root, on the given children. *)
Definition inside (children : Xml.Data) : State :=
  withXml (Xml.init children) (state0 "4.00" [] false).


(** A package that is not open, with a score that would load. *)
Definition closedPackage : MscReader :=
  {| isOpened := false; filePath := "demo.mscz";
     readStyleFile := []; readChordListFile := [];
     imageFileNames := []; readImageFile := fun _ => [];
     readScoreFile := scoreFile "4.00" oneScore;
     excerptNames := [];
     readExcerptStyleFile := fun _ => [];
     readExcerptFile := fun _ => [];
     readAudioFile := [] |}.

End Demo.

(** ** Facts about the strings and the stream *)

Module StrFacts.
Import Str.

Lemma split_length (sep : ascii) (s : string) :
  List.length (split sep s) = S (count sep s).
Proof.
  induction s as [|c r IH]; simpl; [reflexivity|].
  destruct (Ascii.eqb c sep); simpl.
  - now rewrite IH.
  - destruct (split sep r) as [|p ps]; simpl in *; [discriminate|exact IH].
Qed.

Lemma split_head (sep : ascii) (s : string) :
  exists p ps, split sep s = p :: ps.
Proof.
  pose proof (split_length sep s) as H.
  destruct (split sep s) as [|p ps]; [discriminate|eauto].
Qed.

Lemma split_second (sep : ascii) (s : string) :
  nth_error (split sep s) 1 = None <-> count sep s = 0%nat.
Proof.
  pose proof (split_length sep s) as H.
  rewrite nth_error_None. lia.
Qed.

End StrFacts.

Module Int32Facts.

Lemma wrap_range z : Int32.min_int <= Int32.wrap z <= Int32.max_int.
Proof.
  unfold Int32.wrap, Int32.min_int, Int32.max_int.
  pose proof (Z.mod_pos_bound (z + 2 ^ 31) (2 ^ 32) ltac:(lia)). lia.
Qed.

Lemma wrap_in_range z :
  Int32.min_int <= z <= Int32.max_int -> Int32.wrap z = z.
Proof.
  unfold Int32.wrap, Int32.min_int, Int32.max_int. intros H.
  rewrite Z.mod_small by lia. lia.
Qed.

End Int32Facts.

Module XmlFacts.
Import Xml.

Lemma scanStart_length ts b cur rest :
  scanStart ts = (b, cur, rest) ->
  (List.length rest <= List.length ts)%nat /\ (b = true -> (List.length rest < List.length ts)%nat).
Proof.
  revert b cur rest; induction ts as [|t ts IH]; intros b cur rest H; simpl in H.
  - inversion H; subst; simpl; split; [lia|discriminate].
  - destruct t; try (inversion H; subst; simpl; split; intros; lia).
    apply IH in H. simpl. split; [lia|]. intros Hb; apply H in Hb; lia.
Qed.

Lemma readNextStartElement_remaining e b e' :
  readNextStartElement e = (b, e') ->
  (remaining e' <= remaining e)%nat /\ (b = true -> (remaining e' < remaining e)%nat).
Proof.
  unfold readNextStartElement, remaining.
  destruct (scanStart (pending e)) as [[b0 cur] rest] eqn:E.
  intros H; inversion H; subst; simpl. eapply scanStart_length; eauto.
Qed.

Lemma skipLoop_length ts : forall depth cur cur' rest,
  skipLoop depth cur ts = (cur', rest) -> (List.length rest <= List.length ts)%nat.
Proof.
  induction ts as [|t ts IH]; intros depth cur cur' rest H.
  - destruct depth; simpl in H; inversion H; subst; simpl; lia.
  - destruct depth as [|d]; simpl in H.
    + inversion H; subst; lia.
    + destruct t; apply IH in H; simpl; lia.
Qed.

Lemma skipCurrentElement_remaining e :
  (remaining (skipCurrentElement e) <= remaining e)%nat.
Proof.
  unfold skipCurrentElement, remaining.
  destruct (skipLoop 1 (current e) (pending e)) as [cur rest] eqn:E.
  simpl. eapply skipLoop_length; eauto.
Qed.

Lemma textLoop_length ts : forall acc t cur rest,
  textLoop acc ts = (t, cur, rest) -> (List.length rest <= List.length ts)%nat.
Proof.
  induction ts as [|x ts IH]; intros acc t cur rest H; simpl in H.
  - inversion H; subst; simpl; lia.
  - destruct x; try (apply IH in H; simpl; lia).
    inversion H; subst; simpl; lia.
Qed.

Lemma readText_remaining e t e' :
  readText e = (t, e') -> (remaining e' <= remaining e)%nat.
Proof.
  unfold readText, remaining.
  destruct (textLoop "" (pending e)) as [[t0 cur] rest] eqn:E.
  intros H; inversion H; subst; simpl. eapply textLoop_length; eauto.
Qed.

Lemma readInt_remaining base e n e' :
  readInt base e = (n, e') -> (remaining e' <= remaining e)%nat.
Proof.
  unfold readInt. destruct (readText e) as [t e0] eqn:E.
  intros H; inversion H; subst. eapply readText_remaining; eauto.
Qed.


Lemma scanStart_noScore ts : forall b cur rest,
  noScoreElement ts = true ->
  scanStart ts = (b, cur, rest) ->
  noScoreElement rest = true /\
  (b = true -> exists n a, cur = Some (StartElement n a) /\ String.eqb n "Score" = false).
Proof.
  induction ts as [|t ts IH]; intros b cur rest Hno H; simpl in H.
  - inversion H; subst. split; [reflexivity|discriminate].
  - simpl in Hno. apply andb_true_iff in Hno as [Ht Hts].
    destruct t as [n a|n|x]; try (inversion H; subst; split; [assumption|]).
    + intros _. exists n, a. split; [reflexivity|].
      simpl in Ht. now apply negb_true_iff in Ht.
    + discriminate.
    + eapply IH; eauto.
Qed.

Lemma readNextStartElement_noScore e b e' :
  noScoreElement (pending e) = true ->
  readNextStartElement e = (b, e') ->
  noScoreElement (pending e') = true /\
  (b = true -> String.eqb (Xml.name e') "Score" = false).
Proof.
  unfold readNextStartElement.
  destruct (scanStart (pending e)) as [[b0 cur] rest] eqn:E.
  intros Hno H; inversion H; subst.
  destruct (scanStart_noScore _ _ _ _ Hno E) as [Hrest Hname].
  split; [exact Hrest|].
  intros Hb. destruct (Hname Hb) as [n [a [Hcur Hn]]]. subst cur. exact Hn.
Qed.

Lemma skipLoop_noScore ts : forall depth cur cur' rest,
  noScoreElement ts = true ->
  skipLoop depth cur ts = (cur', rest) ->
  noScoreElement rest = true.
Proof.
  induction ts as [|t ts IH]; intros depth cur cur' rest Hno H.
  - destruct depth; simpl in H; inversion H; subst; reflexivity.
  - destruct depth as [|d]; simpl in H.
    + inversion H; subst. exact Hno.
    + simpl in Hno. apply andb_true_iff in Hno as [_ Hts].
      destruct t; eapply IH; eauto.
Qed.

Lemma skipCurrentElement_noScore e :
  noScoreElement (pending e) = true ->
  noScoreElement (pending (skipCurrentElement e)) = true.
Proof.
  unfold skipCurrentElement.
  destruct (skipLoop 1 (current e) (pending e)) as [cur rest] eqn:E.
  intros Hno. simpl. eapply skipLoop_noScore; eauto.
Qed.

Lemma textLoop_noScore ts : forall acc t cur rest,
  noScoreElement ts = true ->
  textLoop acc ts = (t, cur, rest) ->
  noScoreElement rest = true.
Proof.
  induction ts as [|x ts IH]; intros acc t cur rest Hno H; simpl in H.
  - inversion H; subst. reflexivity.
  - simpl in Hno. apply andb_true_iff in Hno as [_ Hts].
    destruct x; try (eapply IH; eauto; fail).
    inversion H; subst. exact Hts.
Qed.

Lemma readText_noScore e t e' :
  noScoreElement (pending e) = true ->
  readText e = (t, e') ->
  noScoreElement (pending e') = true.
Proof.
  unfold readText.
  destruct (textLoop "" (pending e)) as [[t0 cur] rest] eqn:E.
  intros Hno H; inversion H; subst. simpl. eapply textLoop_noScore; eauto.
Qed.

Lemma readInt_noScore base e n e' :
  noScoreElement (pending e) = true ->
  readInt base e = (n, e') ->
  noScoreElement (pending e') = true.
Proof.
  unfold readInt. destruct (readText e) as [t e0] eqn:E.
  intros Hno H; inversion H; subst. eapply readText_noScore; eauto.
Qed.

End XmlFacts.

(** ** Properties of the loader *)

Section Properties.

Context {EM : ElementModel} {K : Collaborators}.

(** *** The loops *)

Lemma read_loop_at_root hook e e1 :
  FindsRoot e e1 ->
  forall st fuel, xml st = e -> (Xml.remaining e < fuel)%nat ->
  read_loop fuel hook st = readRoot hook (withXml e1 st).
Proof.
  induction 1 as [e e1 Hnext Hname | e e1 e2 Hnext Hname Hrest IH];
    intros st fuel Hxml Hfuel; (destruct fuel as [|fuel]; [lia|]);
    simpl; rewrite Hxml, Hnext.
  - rewrite Hname. reflexivity.
  - apply String.eqb_neq in Hname. rewrite Hname.
    apply XmlFacts.readNextStartElement_remaining in Hnext as [_ Hlt].
    specialize (Hlt eq_refl).
    pose proof (XmlFacts.skipCurrentElement_remaining e1) as Hskip.
    rewrite (IH (withXml (Xml.unknown e1) st) fuel eq_refl).
    + reflexivity.
    + unfold Xml.unknown. lia.
Qed.

Lemma read_at_root hook st e1 :
  FindsRoot (xml st) e1 -> read hook st = readRoot hook (withXml e1 st).
Proof.
  intros H. unfold read. eapply read_loop_at_root; eauto.
Qed.

Ltac doRead_step st :=
  simpl;
  let b := fresh "more" in
  let e := fresh "e" in
  let Hnext := fresh "Hnext" in
  destruct (Xml.readNextStartElement (xml st)) as [b e] eqn:Hnext;
  destruct b;
  [ destruct (String.eqb (Xml.name e) "programVersion") eqn:?;
    [ destruct (Xml.readText e) as [? ?] eqn:?
    | destruct (String.eqb (Xml.name e) "programRevision") eqn:?;
      [ destruct (Xml.readInt 16 e) as [? ?] eqn:?
      | destruct (String.eqb (Xml.name e) "Score") eqn:?;
        [ destruct (readScore400 (score st) e (ctx st)) as [[[[|] ?] ?] ?] eqn:?; simpl
        | destruct (String.eqb (Xml.name e) "Revision") eqn:? ] ] ]
  | ].

Lemma doRead_loop_not_OutOfRange fuel :
  forall st, doRead_loop fuel st <> OutOfRange.
Proof.
  induction fuel as [|fuel IH]; intros st; [discriminate|].
  doRead_step st; try apply IH; try discriminate.
  destruct (Xml.Error_eqb _ _); discriminate.
Qed.

Lemma doRead_loop_returns (Hfwd : ForwardOnly) fuel :
  forall st, (Xml.remaining (xml st) < fuel)%nat ->
  exists r, doRead_loop fuel st = Returned r.
Proof.
  induction fuel as [|fuel IH]; intros st Hfuel; [lia|].
  doRead_step st;
    try (apply XmlFacts.readNextStartElement_remaining in Hnext as [_ Hlt];
         specialize (Hlt eq_refl)).
  - apply IH; simpl.
    match goal with H : Xml.readText _ = _ |- _ =>
      apply XmlFacts.readText_remaining in H end. lia.
  - apply IH; simpl.
    match goal with H : Xml.readInt _ _ = _ |- _ =>
      apply XmlFacts.readInt_remaining in H end. lia.
  - apply IH; simpl.
    match goal with H : readScore400 _ _ _ = _ |- _ => apply Hfwd in H end. lia.
  - destruct (Xml.Error_eqb _ _); eauto.
  - apply IH; simpl. pose proof (XmlFacts.skipCurrentElement_remaining e). lia.
  - apply IH; simpl. lia.
  - eauto.
Qed.

Lemma doRead_loop_fuel (Hfwd : ForwardOnly) f1 :
  forall f2 st,
    (Xml.remaining (xml st) < f1)%nat -> (Xml.remaining (xml st) < f2)%nat ->
    doRead_loop f1 st = doRead_loop f2 st.
Proof.
  induction f1 as [|f1 IH]; intros f2 st H1 H2; [lia|].
  destruct f2 as [|f2]; [lia|].
  doRead_step st;
    try (apply XmlFacts.readNextStartElement_remaining in Hnext as [_ Hlt];
         specialize (Hlt eq_refl));
    try reflexivity.
  - match goal with H : Xml.readText _ = _ |- _ =>
      apply XmlFacts.readText_remaining in H end.
    apply IH; simpl; lia.
  - match goal with H : Xml.readInt _ _ = _ |- _ =>
      apply XmlFacts.readInt_remaining in H end.
    apply IH; simpl; lia.
  - match goal with H : readScore400 _ _ _ = _ |- _ => apply Hfwd in H end.
    apply IH; simpl; lia.
  - pose proof (XmlFacts.skipCurrentElement_remaining e).
    apply IH; simpl; lia.
  - apply IH; simpl; lia.
Qed.

(** [doRead] calls no collaborator but the element reader. *)
Lemma doRead_loop_calls fuel :
  forall st err st',
    doRead_loop fuel st = Returned (err, st') ->
    exists n, calls st' = calls st ++ repeat CallReadScore400 n.
Proof.
  induction fuel as [|fuel IH]; intros st err st' H; [discriminate|].
  revert H. doRead_step st; intros H;
    try (apply IH in H; simpl in H; exact H).
  - apply IH in H as [n Hn]. simpl in Hn. exists (S n).
    rewrite Hn, <- app_assoc. reflexivity.
  - exists 1%nat.
    destruct (Xml.Error_eqb _ _); inversion H; subst; reflexivity.
  - inversion H; subst. exists 0%nat. simpl. now rewrite app_nil_r.
Qed.

Lemma doRead_returns (Hfwd : ForwardOnly) st :
  exists err st' n,
    doRead st = Returned (err, st') /\
    calls st' = calls st ++ repeat CallReadScore400 n.
Proof.
  destruct (doRead_loop_returns Hfwd (S (Xml.remaining (xml st))) st) as [[err st'] H];
    [lia|].
  destruct (doRead_loop_calls _ _ _ _ H) as [n Hn].
  exists err, st', n. split; assumption.
Qed.

Lemma runReader_not_OutOfRange st : runReader st <> OutOfRange.
Proof.
  unfold runReader, callLegacy.
  destruct (mscVersion (score st) <=? 114);
    [destruct (read114 _ _ _) as [[[? ?] ?] ?]; discriminate|].
  destruct (mscVersion (score st) <=? 207);
    [destruct (read206 _ _ _) as [[[? ?] ?] ?]; discriminate|].
  destruct ((mscVersion (score st) <? 400) || testMode);
    [destruct (read302 _ _ _) as [[[? ?] ?] ?]; discriminate|].
  apply doRead_loop_not_OutOfRange.
Qed.

Lemma declaredVersion_None e :
  declaredVersion e = None <-> Str.count "." (Xml.attribute e "version") = 0%nat.
Proof.
  unfold declaredVersion.
  destruct (StrFacts.split_head "." (Xml.attribute e "version")) as [p [ps Hsplit]].
  rewrite <- StrFacts.split_second, Hsplit. simpl.
  destruct ps as [|q qs]; simpl; split; congruence.
Qed.

(** The version of a file is an [int]. *)
Lemma declaredVersion_range e v :
  declaredVersion e = Some v -> Int32.min_int <= v <= Int32.max_int.
Proof.
  unfold declaredVersion.
  destruct (nth_error _ 0); [|discriminate].
  destruct (nth_error _ 1); [|discriminate].
  intros H. inversion H. apply Int32Facts.wrap_range.
Qed.

(** Where nothing overflows, it is a hundred times the major number plus
    the minor number. *)
Lemma declaredVersion_small e major minor :
  nth_error (Str.split "." (Xml.attribute e "version")) 0 = Some major ->
  nth_error (Str.split "." (Xml.attribute e "version")) 1 = Some minor ->
  Int32.min_int <= Str.toInt major * 100 + Str.toInt minor <= Int32.max_int ->
  Int32.min_int <= Str.toInt major * 100 <= Int32.max_int ->
  declaredVersion e = Some (Str.toInt major * 100 + Str.toInt minor).
Proof.
  intros H0 H1 Hsum Hmul. unfold declaredVersion. rewrite H0, H1.
  unfold Int32.add, Int32.mul.
  rewrite (Int32Facts.wrap_in_range _ Hmul), (Int32Facts.wrap_in_range _ Hsum).
  reflexivity.
Qed.

Lemma readRoot_accepted hook st v :
  declaredVersion (xml st) = Some v ->
  versionError (withScore (setMscVersion v (score st)) st) = None ->
  readRoot hook st =
  omap finishRead
    (runReader (applyStyleHook hook (withScore (setMscVersion v (score st)) st))).
Proof.
  intros Hv Hacc. unfold readRoot. rewrite Hv. cbv zeta. rewrite Hacc. reflexivity.
Qed.

Lemma readRoot_rejected hook st v err :
  declaredVersion (xml st) = Some v ->
  versionError (withScore (setMscVersion v (score st)) st) = Some err ->
  readRoot hook st =
  Returned (make_ret err, withScore (setMscVersion v (score st)) st).
Proof.
  intros Hv Hrej. unfold readRoot. rewrite Hv. cbv zeta. rewrite Hrej. reflexivity.
Qed.

Lemma read_accepted hook st e1 v :
  FindsRoot (xml st) e1 ->
  declaredVersion e1 = Some v ->
  versionError (withScore (setMscVersion v (score st)) (withXml e1 st)) = None ->
  read hook st =
  omap finishRead
    (runReader
       (applyStyleHook hook (withScore (setMscVersion v (score st)) (withXml e1 st)))).
Proof.
  intros Hroot Hv Hacc. rewrite (read_at_root hook st e1 Hroot).
  exact (readRoot_accepted hook (withXml e1 st) v Hv Hacc).
Qed.

Lemma read_rejected hook st e1 v err :
  FindsRoot (xml st) e1 ->
  declaredVersion e1 = Some v ->
  versionError (withScore (setMscVersion v (score st)) (withXml e1 st)) = Some err ->
  read hook st =
  Returned (make_ret err, withScore (setMscVersion v (score st)) (withXml e1 st)).
Proof.
  intros Hroot Hv Hrej. rewrite (read_at_root hook st e1 Hroot).
  exact (readRoot_rejected hook (withXml e1 st) v err Hv Hrej).
Qed.

(** *** The dispatcher: version acceptance *)

(** C1. When the root element declares version [v] and the context does not
    ignore version errors, [read] returns FileTooNew if [v] exceeds
    MSCVERSION, otherwise FileTooOld if [v] is below 114, otherwise
    FileOld300Format if [v] is 300; in each case the state returned is the
    incoming one with the version set, so no reader and no hook was called.
    When no check fires, or the context ignores version errors, [read] goes
    on to the style hook and the one reader of the version's bucket. *)
Theorem read_version_acceptance hook st e1 v :
  FindsRoot (xml st) e1 ->
  declaredVersion e1 = Some v ->
  let st1 := withScore (setMscVersion v (score st)) (withXml e1 st) in
  (ignoreVersionError (ctx st) = false ->
     (v > MSCVERSION -> read hook st = Returned (make_ret FileTooNew, st1)) /\
     (v <= MSCVERSION -> v < 114 ->
        read hook st = Returned (make_ret FileTooOld, st1)) /\
     (v <= MSCVERSION -> 114 <= v -> v = 300 ->
        read hook st = Returned (make_ret FileOld300Format, st1)) /\
     (v <= MSCVERSION -> 114 <= v -> v <> 300 ->
        read hook st = omap finishRead (runReader (applyStyleHook hook st1))))
  /\ (ignoreVersionError (ctx st) = true ->
        read hook st = omap finishRead (runReader (applyStyleHook hook st1)))
  /\ calls st1 = calls st.
Proof.
  intros Hroot Hv st1.
  rewrite (read_at_root hook st e1 Hroot).
  unfold readRoot. simpl xml. rewrite Hv. fold st1.
  unfold versionError. simpl.
  split; [|split; [|reflexivity]].
  - intros Hign. rewrite Hign. simpl.
    destruct (Z.gtb_spec v MSCVERSION); destruct (Z.ltb_spec v 114);
      destruct (Z.eqb_spec v 300);
      repeat split; intros; try lia; reflexivity.
  - intros Hign. rewrite Hign. reflexivity.
Qed.

(** C6. The version attribute is split on '.' and parts 0 and 1 are indexed
    without a check of the number of parts: [read] runs into the
    out-of-range access exactly when the attribute of the root element has
    no '.', and so returns a result only for attributes with a minor part. *)
Theorem read_version_needs_minor hook st e1 :
  FindsRoot (xml st) e1 ->
  (read hook st = OutOfRange <->
   Str.count "." (Xml.attribute e1 "version") = 0%nat).
Proof.
  intros Hroot. rewrite (read_at_root hook st e1 Hroot).
  rewrite <- declaredVersion_None.
  unfold readRoot. simpl xml.
  destruct (declaredVersion e1) as [v|]; [|tauto].
  split; [|discriminate].
  destruct (versionError _); [discriminate|].
  pose proof (runReader_not_OutOfRange
                (applyStyleHook hook (withScore (setMscVersion v (score st)) (withXml e1 st)))).
  destruct (runReader _); simpl; congruence.
Qed.

(** *** The dispatcher: choice of the reader and the style hook *)

Lemma filter_repeat_ReadScore400 (f : Call -> bool) n :
  f CallReadScore400 = false -> filter f (repeat CallReadScore400 n) = [].
Proof.
  intros Hf. induction n as [|n IH]; simpl; [reflexivity|]. now rewrite Hf.
Qed.

Lemma readerCalls_isReader k n : filter isReader (readerCalls k n) = [CallReader k].
Proof.
  destruct k; simpl; try reflexivity.
  now rewrite filter_repeat_ReadScore400.
Qed.

Lemma readerCalls_isHook k n : filter isHook (readerCalls k n) = [].
Proof.
  destruct k; simpl; try reflexivity.
  now rewrite filter_repeat_ReadScore400.
Qed.

Lemma runReader_calls (Hfwd : ForwardOnly) st :
  exists err st' n,
    runReader st = Returned (err, st') /\
    calls st' = calls st ++ readerCalls (bucket (mscVersion (score st))) n.
Proof.
  unfold runReader, bucket, callLegacy.
  destruct (mscVersion (score st) <=? 114).
  { destruct (read114 _ _ _) as [[[err m] e] c]. exists err. eexists. exists 0%nat.
    split; reflexivity. }
  destruct (mscVersion (score st) <=? 207).
  { destruct (read206 _ _ _) as [[[err m] e] c]. exists err. eexists. exists 0%nat.
    split; reflexivity. }
  destruct ((mscVersion (score st) <? 400) || testMode).
  { destruct (read302 _ _ _) as [[[err m] e] c]. exists err. eexists. exists 0%nat.
    split; reflexivity. }
  match goal with |- context [doRead ?s] =>
    destruct (doRead_returns Hfwd s) as [err [st' [n [Hret Hcalls]]]] end.
  exists err, st', n. split; [exact Hret|].
  rewrite Hcalls. simpl. rewrite <- !app_assoc. reflexivity.
Qed.

Lemma finishRead_calls r : calls (snd (finishRead r)) = calls (snd r).
Proof. destruct r as [err st]. reflexivity. Qed.

Lemma applyStyleHook_version (Hhook : HookKeepsVersion) hook st :
  mscVersion (score (applyStyleHook hook st)) = mscVersion (score st).
Proof.
  unfold applyStyleHook. destruct hook as [h|]; [|reflexivity].
  destruct ((mscVersion (score st) <? 400) || testMode); [|reflexivity].
  simpl. apply Hhook.
Qed.

Lemma read_returns_at_root (Hfwd : ForwardOnly) hook st e1 v :
  FindsRoot (xml st) e1 ->
  declaredVersion e1 = Some v ->
  exists ret st', read hook st = Returned (ret, st').
Proof.
  intros Hroot Hv. rewrite (read_at_root hook st e1 Hroot).
  unfold readRoot. simpl xml. rewrite Hv. cbv zeta.
  destruct (versionError _); [eauto|].
  match goal with |- context [runReader ?s] =>
    destruct (runReader_calls Hfwd s) as [err [st' [n [Hrun _]]]] end.
  rewrite Hrun. simpl. eauto.
Qed.

(** C2. For a version that passes or bypasses the acceptance checks, [read]
    hands the score to exactly one reader, chosen by the first bucket that
    matches: up to 114 the 114 reader, up to 207 the 206 reader, below 400
    or in test mode the 302 reader, and otherwise [doRead], run on the score
    that [checkChordList] returned.  The reader is applied to the score,
    the stream and the context as the style hook left them; what [read]
    returns is the reader's error with the reader's score, stream and
    context, both flags cleared. *)
Theorem read_dispatch hook st e1 v :
  FindsRoot (xml st) e1 ->
  declaredVersion e1 = Some v ->
  let st1 := withScore (setMscVersion v (score st)) (withXml e1 st) in
  versionError st1 = None ->
  HookKeepsVersion ->
  ForwardOnly ->
  let st2 := applyStyleHook hook st1 in
  let finished (err : Err) (m : MasterScore) (e : Xml.Reader) (c : ReadContext)
        (l : list Call) : Outcome (Ret * ReadState) :=
    Returned
      (make_ret err,
       {| score := setAutosaveDirty false (setExcerptsChanged false m);
          xml := e; ctx := c; calls := l |}) in
  (v <= 114 ->
     forall err m e c,
       read114 (score st2) (xml st2) (ctx st2) = (err, m, e, c) ->
       read hook st = finished err m e c (calls st2 ++ [CallReader Read114])) /\
  (114 < v -> v <= 207 ->
     forall err m e c,
       read206 (score st2) (xml st2) (ctx st2) = (err, m, e, c) ->
       read hook st = finished err m e c (calls st2 ++ [CallReader Read206])) /\
  (207 < v -> v < 400 \/ testMode = true ->
     forall err m e c,
       read302 (score st2) (xml st2) (ctx st2) = (err, m, e, c) ->
       read hook st = finished err m e c (calls st2 ++ [CallReader Read302])) /\
  (400 <= v -> testMode = false ->
     st2 = st1 /\
     forall err st',
       doRead {| score := checkChordList (setMscVersion v (score st));
                 xml := e1; ctx := ctx st;
                 calls := calls st ++ [CallCheckChordList; CallReader Read400] |}
       = Returned (err, st') ->
       read hook st = finished err (score st') (xml st') (ctx st') (calls st')) /\
  exists ret st' l,
    read hook st = Returned (ret, st') /\
    calls st' = calls st2 ++ l /\
    filter isReader l = [CallReader (bucket v)].
Proof.
  intros Hroot Hv st1 Hacc Hhook Hfwd st2 finished.
  assert (Hread : read hook st = omap finishRead (runReader st2)).
  { exact (read_accepted hook st e1 v Hroot Hv Hacc). }
  assert (Hver : mscVersion (score st2) = v).
  { unfold st2. rewrite applyStyleHook_version by assumption. reflexivity. }
  rewrite Hread.
  split; [|split; [|split; [|split]]].
  - intros H err m e c Hr. unfold runReader, callLegacy. rewrite Hver.
    destruct (Z.leb_spec v 114); [|lia]. rewrite Hr. reflexivity.
  - intros H1 H2 err m e c Hr. unfold runReader, callLegacy. rewrite Hver.
    destruct (Z.leb_spec v 114); [lia|].
    destruct (Z.leb_spec v 207); [|lia]. rewrite Hr. reflexivity.
  - intros H1 H2 err m e c Hr. unfold runReader, callLegacy. rewrite Hver.
    destruct (Z.leb_spec v 114); [lia|].
    destruct (Z.leb_spec v 207); [lia|].
    assert (Hc : (v <? 400) || testMode = true).
    { destruct H2 as [H2|H2].
      - destruct (Z.ltb_spec v 400); [reflexivity|lia].
      - rewrite H2. apply orb_true_r. }
    rewrite Hc, Hr. reflexivity.
  - intros H1 H2.
    assert (Hst2 : st2 = st1).
    { unfold st2, applyStyleHook. destruct hook; [|reflexivity].
      simpl. rewrite H2. destruct (Z.ltb_spec v 400); [lia|reflexivity]. }
    split; [exact Hst2|].
    intros err st' Hrun. rewrite Hst2. unfold runReader. simpl.
    destruct (Z.leb_spec v 114); [lia|].
    destruct (Z.leb_spec v 207); [lia|].
    rewrite H2. destruct (Z.ltb_spec v 400); [lia|]. simpl.
    unfold logged, withScore, withXml. simpl. rewrite <- app_assoc. simpl.
    rewrite Hrun. reflexivity.
  - destruct (runReader_calls Hfwd st2) as [err [st' [n [Hrun Hcalls]]]].
    rewrite Hrun. simpl.
    eexists. eexists. exists (readerCalls (bucket v) n).
    split; [reflexivity|]. simpl. rewrite Hcalls, Hver.
    split; [reflexivity|apply readerCalls_isReader].
Qed.

(** C8, as amended.  The full set-up of the style hook is among the calls
    of [read] exactly when a hook was supplied, the version passed or
    bypassed the acceptance checks, and the version is below 400 or test
    mode is on.  It is then the first call [read] makes and the only call
    of the hook; the call of the reader comes after it, and the reader
    receives the score as the hook left it.  With no hook, or at 400 and
    above outside test mode, the reader receives the score as the version
    left it; on a version error [read] makes no call at all. *)
Theorem read_style_hook_timing hook st e1 v :
  FindsRoot (xml st) e1 ->
  declaredVersion e1 = Some v ->
  ForwardOnly ->
  let st1 := withScore (setMscVersion v (score st)) (withXml e1 st) in
  exists ret st' l,
    read hook st = Returned (ret, st') /\
    calls st' = calls st ++ l /\
    (In CallHookSetupDefaultStyle l <->
     hook <> None /\ versionError st1 = None /\ (v < 400 \/ testMode = true)) /\
    (forall h,
       hook = Some h -> versionError st1 = None -> v < 400 \/ testMode = true ->
       exists k l',
         l = CallHookSetupDefaultStyle :: l' /\
         filter isReader l' = [CallReader k] /\
         filter isHook l' = [] /\
         read hook st =
         omap finishRead
           (runReader (logged CallHookSetupDefaultStyle
                         (withScore (hookSetupDefaultStyle h (score st1)) st1)))) /\
    (versionError st1 = None ->
     hook = None \/ (400 <= v /\ testMode = false) ->
       filter isHook l = [] /\
       read hook st = omap finishRead (runReader st1)) /\
    (forall err, versionError st1 = Some err ->
       l = [] /\ read hook st = Returned (make_ret err, st1)).
Proof.
  intros Hroot Hv Hfwd st1.
  destruct (versionError st1) as [err|] eqn:Hacc.
  - pose proof (read_rejected hook st e1 v err Hroot Hv Hacc) as Hread.
    exists (make_ret err), st1, [].
    split; [exact Hread|]. split; [simpl; now rewrite app_nil_r|].
    split; [split; [intros []|intros [_ [H _]]; discriminate H]|].
    split; [intros h _ H; discriminate H|].
    split; [intros H; discriminate H|].
    intros err' H. inversion H; subst. split; [reflexivity|exact Hread].
  - pose proof (read_accepted hook st e1 v Hroot Hv Hacc) as Hread.
    fold st1 in Hread.
    assert (Hc : (v <? 400) || testMode = true <-> v < 400 \/ testMode = true).
    { rewrite orb_true_iff, Z.ltb_lt. reflexivity. }
    assert (Hnotin : forall k n, ~ In CallHookSetupDefaultStyle (readerCalls k n)).
    { intros k n Hin.
      assert (Hf : In CallHookSetupDefaultStyle (filter isHook (readerCalls k n))).
      { apply filter_In. split; [exact Hin|reflexivity]. }
      rewrite readerCalls_isHook in Hf. exact Hf. }
    destruct (runReader_calls Hfwd (applyStyleHook hook st1))
      as [err [st' [n [Hrun Hcalls]]]].
    set (k := bucket (mscVersion (score (applyStyleHook hook st1)))) in *.
    assert (Hcases :
      (exists h, hook = Some h /\ (v <? 400) || testMode = true /\
         applyStyleHook hook st1
         = logged CallHookSetupDefaultStyle
             (withScore (hookSetupDefaultStyle h (score st1)) st1)) \/
      ((hook = None \/ (v <? 400) || testMode = false) /\
       applyStyleHook hook st1 = st1)).
    { unfold applyStyleHook. destruct hook as [h|]; [|right; split; [now left|reflexivity]].
      simpl. destruct ((v <? 400) || testMode) eqn:Ec.
      - left. exists h. repeat split; reflexivity.
      - right. split; [now right|reflexivity]. }
    destruct Hcases as [[h [Hh [Ec Hst]]]|[Hno Hst]].
    + exists (fst (finishRead (err, st'))), (snd (finishRead (err, st'))),
        (CallHookSetupDefaultStyle :: readerCalls k n).
      split; [rewrite Hread, Hrun; reflexivity|].
      split.
      { simpl. rewrite Hcalls, Hst. simpl. rewrite <- app_assoc. reflexivity. }
      split.
      { split.
        - intros _. split; [rewrite Hh; discriminate|]. split; [reflexivity|].
          apply Hc. exact Ec.
        - intros _. now left. }
      split.
      { intros h' Hh' _ _. rewrite Hh in Hh'. inversion Hh'; subst h'.
        exists k, (readerCalls k n).
        split; [reflexivity|].
        split; [apply readerCalls_isReader|].
        split; [apply readerCalls_isHook|].
        rewrite Hread, Hst. reflexivity. }
      split.
      { intros _ [Hnone|[Hge Htest]].
        - rewrite Hh in Hnone. discriminate.
        - apply Hc in Ec. destruct Ec as [Hlt|Ht]; [lia|congruence]. }
      intros err' H. discriminate H.
    + exists (fst (finishRead (err, st'))), (snd (finishRead (err, st'))),
        (readerCalls k n).
      split; [rewrite Hread, Hrun; reflexivity|].
      split.
      { simpl. rewrite Hcalls, Hst. reflexivity. }
      split.
      { split.
        - intros Hin. exfalso. exact (Hnotin _ _ Hin).
        - intros [Hsome [_ Hcond]]. exfalso. apply Hc in Hcond.
          destruct Hno as [Hnone|Ec]; [contradiction|congruence]. }
      split.
      { intros h Hh _ Hcond. exfalso. apply Hc in Hcond.
        destruct Hno as [Hnone|Ec]; [congruence|congruence]. }
      split.
      { intros _ _. split; [apply readerCalls_isHook|].
        rewrite Hread, Hst. reflexivity. }
      intros err' H. discriminate H.
Qed.

(** *** What the readers leave alone *)

Lemma doRead_loop_keeps {A : Type} (f : MasterScore -> A) fuel :
  ReadersKeep f -> NotWrittenByRead f ->
  forall st err st',
    doRead_loop fuel st = Returned (err, st') -> f (score st') = f (score st).
Proof.
  intros [_ [_ [_ [_ [_ H400]]]]] [Hv [Hr _]].
  induction fuel as [|fuel IH]; intros st err st' H; [discriminate|].
  revert H. doRead_step st; intros H;
    try (apply IH in H; simpl in H; rewrite H; auto; fail).
  - apply IH in H. simpl in H. rewrite H.
    match goal with E : readScore400 _ _ _ = _ |- _ =>
      rewrite <- (H400 (score st) e (ctx st)), E end. reflexivity.
  - match goal with E : readScore400 _ _ _ = _ |- _ =>
      rewrite <- (H400 (score st) e (ctx st)), E end.
    destruct (Xml.Error_eqb _ _); inversion H; subst; reflexivity.
  - inversion H; subst. reflexivity.
Qed.

Lemma runReader_keeps {A : Type} (f : MasterScore -> A) st err st' :
  ReadersKeep f -> NotWrittenByRead f ->
  runReader st = Returned (err, st') -> f (score st') = f (score st).
Proof.
  intros Hkeep Hset. pose proof Hkeep as [_ [Hcheck [H114 [H206 [H302 _]]]]].
  unfold runReader, callLegacy.
  destruct (mscVersion (score st) <=? 114).
  { specialize (H114 (score st) (xml st) (ctx st)).
    destruct (read114 _ _ _) as [[[? ?] ?] ?]. intros H; inversion H; subst.
    exact H114. }
  destruct (mscVersion (score st) <=? 207).
  { specialize (H206 (score st) (xml st) (ctx st)).
    destruct (read206 _ _ _) as [[[? ?] ?] ?]. intros H; inversion H; subst.
    exact H206. }
  destruct ((mscVersion (score st) <? 400) || testMode).
  { specialize (H302 (score st) (xml st) (ctx st)).
    destruct (read302 _ _ _) as [[[? ?] ?] ?]. intros H; inversion H; subst.
    exact H302. }
  intros H. apply (doRead_loop_keeps f _ Hkeep Hset) in H. simpl in H.
  rewrite H. apply Hcheck.
Qed.

(** When [read] returns, a field the readers keep is what it was once the
    version had been set; in particular the version of the master is the
    one the file declares. *)
Lemma read_keeps {A : Type} (f : MasterScore -> A) hook st e1 v ret st' :
  ReadersKeep f -> NotWrittenByRead f ->
  FindsRoot (xml st) e1 ->
  declaredVersion e1 = Some v ->
  read hook st = Returned (ret, st') ->
  f (score st') = f (setMscVersion v (score st)).
Proof.
  intros Hkeep Hset Hroot Hv.
  rewrite (read_at_root hook st e1 Hroot). unfold readRoot. simpl xml.
  rewrite Hv. cbv zeta. destruct (versionError _).
  - intros H; inversion H; subst. reflexivity.
  - destruct (runReader _) as [[err st2]| |] eqn:Hrun; try discriminate.
    simpl. intros H; inversion H; subst. simpl.
    pose proof Hset as [_ [_ [Hec Had]]]. rewrite Had, Hec.
    rewrite (runReader_keeps f _ _ _ Hkeep Hset Hrun).
    unfold applyStyleHook. destruct hook as [h|]; [|reflexivity].
    simpl. destruct ((v <? 400) || testMode); [|reflexivity].
    simpl. apply Hkeep.
Qed.


Lemma read_sets_declared_version hook st e1 v ret st' :
  ReadersKeep mscVersion ->
  FindsRoot (xml st) e1 ->
  declaredVersion e1 = Some v ->
  read hook st = Returned (ret, st') ->
  mscVersion (score st') = v.
Proof.
  intros Hkeep Hroot Hv Hread.
  rewrite (read_keeps mscVersion hook st e1 v ret st' Hkeep); auto.
  repeat split; reflexivity.
Qed.

(** *** The loader: what each step touches *)

Lemma readImages_master mscReader w :
  master (readImages mscReader w) = master w.
Proof.
  unfold readImages. destruct noImages; simpl; [reflexivity|].
  revert w. induction (imageFileNames mscReader) as [|n ns IH]; intros w; simpl;
    [reflexivity|].
  rewrite IH. reflexivity.
Qed.

Lemma readSideFiles_keeps {A : Type} (f : MasterScore -> A) mscReader w :
  (forall s m, f (setStyle s m) = f m) ->
  (forall c m, f (setChordList c m) = f m) ->
  f (master (readSideFiles mscReader w)) = f (master w).
Proof.
  intros Hstyle Hchord. unfold readSideFiles.
  rewrite readImages_master.
  unfold readChordList, readStyle.
  destruct (readChordListFile mscReader); destruct (readStyleFile mscReader); simpl;
    rewrite ?Hchord, ?Hstyle; reflexivity.
Qed.

Lemma readExcerpt_keeps {A : Type} (f : MasterScore -> A) mscReader c w n :
  ExcerptStepKeeps f ->
  f (master (readExcerpt mscReader c w n)) = f (master w).
Proof.
  intros [Hlink Hadd]. unfold readExcerpt.
  destruct (read400 _ _ _) as [[[err p] e] c'].
  destruct (linkMeasures p (master w)) as [p' m] eqn:E. simpl.
  rewrite Hadd. rewrite <- (Hlink p (master w)), E. reflexivity.
Qed.

Lemma readExcerpts_keeps {A : Type} (f : MasterScore -> A) mscReader c w :
  ExcerptStepKeeps f ->
  f (master (readExcerpts mscReader c w)) = f (master w).
Proof.
  intros Hkeep. unfold readExcerpts.
  destruct (mscVersion (master w) >=? 400); [|reflexivity].
  revert w. induction (excerptNames mscReader) as [|n ns IH]; intros w; simpl;
    [reflexivity|].
  rewrite IH. apply readExcerpt_keeps. exact Hkeep.
Qed.

Lemma afterRead_keeps {A : Type} (f : MasterScore -> A) mscReader w st :
  ExcerptStepKeeps f ->
  (forall d m, f (setAudioData d m) = f m) ->
  f (master (afterRead mscReader w st)) = f (score st).
Proof.
  intros Hkeep Haudio. unfold afterRead, moveSettings, readAudio. simpl.
  match goal with |- context [readExcerpts ?r ?c ?x] =>
    pose proof (readExcerpts_keeps f r c x Hkeep) as Hex;
    destruct (audio (master (readExcerpts r c x))) end; simpl in *;
    rewrite ?Haudio; exact Hex.
Qed.


Lemma fold_readExcerpt_log mscReader c names :
  forall w, log (fold_left (readExcerpt mscReader c) names w) =
            log w ++ flat_map excerptCalls names.
Proof.
  induction names as [|n ns IH]; intros w; simpl fold_left.
  - simpl. now rewrite app_nil_r.
  - rewrite IH. unfold readExcerpt.
    destruct (read400 _ _ _) as [[[err p] e] c'].
    destruct (linkMeasures p (master w)) as [p' m].
    cbn [log withMaster flat_map]. rewrite <- app_assoc. reflexivity.
Qed.

Lemma afterRead_log mscReader w st :
  exists rest,
    audioCalls rest /\
    log (afterRead mscReader w st) =
    calls st
    ++ (if mscVersion (score st) >=? 400
        then flat_map excerptCalls (excerptNames mscReader) else [])
    ++ rest.
Proof.
  unfold afterRead, moveSettings, readAudio, readExcerpts. cbn [master log].
  destruct (mscVersion (score st) >=? 400).
  - match goal with |- context [audio ?m] => destruct (audio m) end; cbn [log withMaster];
      rewrite fold_readExcerpt_log; cbn [log].
    + exists [CallAudioSetData]. split; [now right|]. now rewrite <- app_assoc.
    + exists []. split; [now left|]. now rewrite app_nil_r.
  - cbn [master]. destruct (audio (score st)); cbn [log withMaster].
    + exists [CallAudioSetData]. split; [now right|]. reflexivity.
    + exists []. split; [now left|]. simpl. now rewrite app_nil_r.
Qed.

Lemma loadMscz_opened w mscReader ignore :
  isOpened mscReader = true ->
  loadMscz w mscReader ignore =
  omap (fun r => (fst r, afterRead mscReader (readSideFiles mscReader w) (snd r)))
    (read (Some (scoreStyleHook mscReader (readSideFiles mscReader w)))
       (scoreReadState mscReader ignore (readSideFiles mscReader w))).
Proof.
  intros Hopen. unfold loadMscz. rewrite Hopen. simpl.
  destruct (read _ _) as [[ret st]| |]; reflexivity.
Qed.

(** *** The loader: the result it returns *)

(** C5, as amended.  A package that is not open is answered with
    FileOpenError and its path, and nothing is read.  For an opened package,
    what [loadMscz] returns is the result that the call of [read] on the
    main score stream returned, and it returns exactly when that call does.
    The steps after the call do not look at the result: the excerpts are
    read whenever the version of the master is at least 400, and the audio
    stream is then attached whenever the master holds an audio object; what
    [read400] answers for a part is dropped. *)
Theorem loadMscz_returns_read_result w mscReader ignore :
  let w1 := readSideFiles mscReader w in
  let r := read (Some (scoreStyleHook mscReader w1))
             (scoreReadState mscReader ignore w1) in
  (isOpened mscReader = false ->
     loadMscz w mscReader ignore
     = Returned (make_ret_text FileOpenError (filePath mscReader), w)) /\
  (isOpened mscReader = true ->
     omap fst (loadMscz w mscReader ignore) = omap fst r /\
     forall ret st, r = Returned (ret, st) ->
       let wx :=
         readExcerpts mscReader (ctx st)
           {| master := score st; imageStore := imageStore w1;
              settingsCompat := settingsCompat w1; log := calls st |} in
       exists w',
         loadMscz w mscReader ignore = Returned (ret, w') /\
         log wx =
         calls st
         ++ (if mscVersion (score st) >=? 400
             then flat_map excerptCalls (excerptNames mscReader) else []) /\
         master w' =
         match audio (master wx) with
         | Some _ => setAudioData (readAudioFile mscReader) (master wx)
         | None => master wx
         end /\
         log w' =
         log wx
         ++ match audio (master wx) with
            | Some _ => [CallAudioSetData]
            | None => []
            end).
Proof.
  intros w1 r. split.
  - intros Hclosed. unfold loadMscz. rewrite Hclosed. reflexivity.
  - intros Hopen. rewrite (loadMscz_opened w mscReader ignore Hopen).
    fold w1. fold r. split.
    + destruct r as [[ret st]| |]; reflexivity.
    + intros ret st Hr wx. rewrite Hr. cbn [omap fst snd].
      eexists. split; [reflexivity|].
      split.
      { unfold wx, readExcerpts. cbn [master].
        destruct (mscVersion (score st) >=? 400).
        - rewrite fold_readExcerpt_log. reflexivity.
        - cbn [log]. now rewrite app_nil_r. }
      unfold afterRead, moveSettings, readAudio. fold wx. cbn [master log].
      destruct (audio (master wx)); cbn [master log withMaster].
      * split; reflexivity.
      * split; [reflexivity|now rewrite app_nil_r].
Qed.

(** *** The loader: the flags of the master score *)

Lemma scoreReadState_flags mscReader ignore w :
  excerptsChanged (score (scoreReadState mscReader ignore (readSideFiles mscReader w)))
  = excerptsChanged (master w) /\
  autosaveDirty (score (scoreReadState mscReader ignore (readSideFiles mscReader w)))
  = autosaveDirty (master w).
Proof.
  simpl. split.
  - apply (readSideFiles_keeps excerptsChanged); reflexivity.
  - apply (readSideFiles_keeps autosaveDirty); reflexivity.
Qed.

(** C3, as amended.  When the root element is found and its version is
    accepted (or the checks are bypassed), both flags are false when [read]
    returns, whatever the reader reported, and they are still false when
    [loadMscz] returns provided the excerpt linker and [addExcerpt] leave
    them alone.  When [read] returns a version error it returns before the
    flags are cleared, and they keep the values they had before the load. *)
Theorem flags_after_load w mscReader ignore e1 v :
  isOpened mscReader = true ->
  let w1 := readSideFiles mscReader w in
  let hook := Some (scoreStyleHook mscReader w1) in
  let st0 := scoreReadState mscReader ignore w1 in
  let st1 := withScore (setMscVersion v (score st0)) (withXml e1 st0) in
  FindsRoot (xml st0) e1 ->
  declaredVersion e1 = Some v ->
  ForwardOnly ->
  (versionError st1 = None ->
     exists ret st',
       read hook st0 = Returned (ret, st') /\
       excerptsChanged (score st') = false /\
       autosaveDirty (score st') = false /\
       (ExcerptStepKeeps excerptsChanged -> ExcerptStepKeeps autosaveDirty ->
        exists w',
          loadMscz w mscReader ignore = Returned (ret, w') /\
          excerptsChanged (master w') = false /\
          autosaveDirty (master w') = false))
  /\
  (forall err, versionError st1 = Some err ->
     exists st',
       read hook st0 = Returned (make_ret err, st') /\
       excerptsChanged (score st') = excerptsChanged (master w) /\
       autosaveDirty (score st') = autosaveDirty (master w) /\
       (ExcerptStepKeeps excerptsChanged -> ExcerptStepKeeps autosaveDirty ->
        exists w',
          loadMscz w mscReader ignore = Returned (make_ret err, w') /\
          excerptsChanged (master w') = excerptsChanged (master w) /\
          autosaveDirty (master w') = autosaveDirty (master w))).
Proof.
  intros Hopen w1 hook st0 st1 Hroot Hv Hfwd.
  pose proof (loadMscz_opened w mscReader ignore Hopen) as Hload.
  fold w1 in Hload. fold hook in Hload. fold st0 in Hload.
  destruct (scoreReadState_flags mscReader ignore w) as [Hec Had].
  fold w1 in Hec, Had. fold st0 in Hec, Had.
  split.
  - intros Hacc.
    pose proof (read_accepted hook st0 e1 v Hroot Hv Hacc) as Hread.
    destruct (runReader_calls Hfwd (applyStyleHook hook st1))
      as [err [st' [n [Hrun _]]]].
    fold st1 in Hread. rewrite Hrun in Hread. simpl in Hread.
    eexists. eexists. split; [exact Hread|].
    split; [reflexivity|]. split; [reflexivity|].
    intros Kec Kad. rewrite Hload, Hread. simpl.
    eexists. split; [reflexivity|]. split.
    + rewrite (afterRead_keeps excerptsChanged) by (auto; reflexivity). reflexivity.
    + rewrite (afterRead_keeps autosaveDirty) by (auto; reflexivity). reflexivity.
  - intros err Hrej.
    pose proof (read_rejected hook st0 e1 v err Hroot Hv Hrej) as Hread.
    fold st1 in Hread.
    exists st1. split; [exact Hread|].
    split; [exact Hec|]. split; [exact Had|].
    intros Kec Kad. rewrite Hload, Hread. simpl.
    eexists. split; [reflexivity|]. split.
    + rewrite (afterRead_keeps excerptsChanged) by (auto; reflexivity). exact Hec.
    + rewrite (afterRead_keeps autosaveDirty) by (auto; reflexivity). exact Had.
Qed.

(** *** The loader: excerpts *)

Lemma readExcerpt_excerpts mscReader c w n :
  AddExcerptAppends -> LinkMeasuresKeepsExcerpts ->
  exists ex,
    excerpts (master (readExcerpt mscReader c w n)) = excerpts (master w) ++ [ex] /\
    excerptName ex = n /\
    ReadFromPart mscReader c ex.
Proof.
  intros Hadd Hlink. unfold readExcerpt.
  destruct (read400 _ _ _) as [[[err p] e] c'] eqn:E400.
  destruct (linkMeasures p (master w)) as [p' m] eqn:Elink.
  eexists. cbn [master withMaster]. rewrite Hadd.
  rewrite <- (Hlink p (master w)), Elink. cbn [snd].
  split; [reflexivity|]. split; [reflexivity|].
  unfold ReadFromPart. cbn [excerptName tracksMapping].
  eexists. eexists. split; [|rewrite E400; reflexivity]. reflexivity.
Qed.

Lemma fold_readExcerpt_excerpts mscReader c names :
  AddExcerptAppends -> LinkMeasuresKeepsExcerpts ->
  forall w, exists exs,
    excerpts (master (fold_left (readExcerpt mscReader c) names w))
    = excerpts (master w) ++ exs /\
    map excerptName exs = names /\
    Forall (ReadFromPart mscReader c) exs.
Proof.
  intros Hadd Hlink. induction names as [|n ns IH]; intros w; simpl fold_left.
  - exists []. rewrite app_nil_r. repeat split. constructor.
  - destruct (readExcerpt_excerpts mscReader c w n Hadd Hlink) as [ex [Hex [Hname Hpart]]].
    destruct (IH (readExcerpt mscReader c w n)) as [exs [Hexs [Hnames Hparts]]].
    exists (ex :: exs). rewrite Hexs, Hex, <- app_assoc. simpl.
    rewrite Hname, Hnames. repeat split. constructor; assumption.
Qed.

Lemma afterRead_excerpts mscReader w st :
  excerpts (master (afterRead mscReader w st)) =
  excerpts (master (readExcerpts mscReader (ctx st)
                      {| master := score st; imageStore := imageStore w;
                         settingsCompat := settingsCompat w; log := calls st |})).
Proof.
  unfold afterRead, moveSettings, readAudio. cbn [master].
  match goal with |- context [audio ?m] => destruct (audio m) end; reflexivity.
Qed.

(** C9.  A version error is returned after the version of the master has
    been set from the file.  So for a package whose score declares a version
    above MSCVERSION that is at least 400, [loadMscz] reports FileTooNew and
    still runs the excerpt step for every excerpt name: it creates the part,
    reads it with [read400], links it and appends its excerpt. *)
Theorem loadMscz_rejected_still_reads_excerpts w mscReader ignore e1 v :
  isOpened mscReader = true ->
  let w1 := readSideFiles mscReader w in
  let hook := Some (scoreStyleHook mscReader w1) in
  let st0 := scoreReadState mscReader ignore w1 in
  let st1 := withScore (setMscVersion v (score st0)) (withXml e1 st0) in
  FindsRoot (xml st0) e1 ->
  declaredVersion e1 = Some v ->
  (forall err, versionError st1 = Some err ->
     read hook st0 = Returned (make_ret err, st1) /\ mscVersion (score st1) = v)
  /\
  (ignore = false -> MSCVERSION < v -> 400 <= v ->
     exists w',
       loadMscz w mscReader ignore = Returned (make_ret FileTooNew, w') /\
       (exists rest,
          audioCalls rest /\
          log w' = log w1 ++ flat_map excerptCalls (excerptNames mscReader) ++ rest) /\
       (AddExcerptAppends -> LinkMeasuresKeepsExcerpts ->
        exists exs,
          excerpts (master w') = excerpts (master w) ++ exs /\
          map excerptName exs = excerptNames mscReader /\
          Forall (ReadFromPart mscReader (ctx st1)) exs)).
Proof.
  intros Hopen w1 hook st0 st1 Hroot Hv.
  assert (Hrej : forall err, versionError st1 = Some err ->
                 read hook st0 = Returned (make_ret err, st1)).
  { intros err Herr. exact (read_rejected hook st0 e1 v err Hroot Hv Herr). }
  split; [intros err Herr; split; [auto|reflexivity]|].
  intros Hign Hnew Hver.
  assert (Herr : versionError st1 = Some FileTooNew).
  { unfold versionError. simpl. rewrite Hign. simpl.
    destruct (Z.gtb_spec v MSCVERSION); [reflexivity|lia]. }
  pose proof (Hrej _ Herr) as Hread.
  rewrite (loadMscz_opened w mscReader ignore Hopen).
  fold w1. fold hook. fold st0. rewrite Hread. cbn [omap fst snd].
  eexists. split; [reflexivity|]. split.
  - destruct (afterRead_log mscReader w1 st1) as [rest [Haudio Hlog]].
    exists rest. split; [exact Haudio|]. rewrite Hlog. simpl.
    destruct (Z.geb_spec v 400); [reflexivity|lia].
  - intros Hadd Hlink. rewrite afterRead_excerpts. unfold readExcerpts.
    cbn [master]. simpl (mscVersion _).
    destruct (Z.geb_spec v 400); [|lia].
    match goal with |- context [fold_left ?f ?l ?x] =>
      destruct (fold_readExcerpt_excerpts mscReader (ctx st1) l Hadd Hlink x)
        as [exs [Hexs [Hnames Hparts]]] end.
    exists exs. rewrite Hexs. cbn [master]. simpl (excerpts _).
    unfold w1. rewrite (readSideFiles_keeps excerpts) by reflexivity.
    repeat split; assumption.
Qed.

(** *** The loader: the side files *)

Lemma fold_addImage mscReader names :
  forall w,
    imageStore (fold_left (addImage mscReader) names w)
    = fold_left (fun s name => imageStoreAdd s name (readImageFile mscReader name))
        names (imageStore w) /\
    log (fold_left (addImage mscReader) names w) = log w ++ map CallImageAdd names.
Proof.
  induction names as [|n ns IH]; intros w; simpl.
  - now rewrite app_nil_r.
  - destruct (IH (addImage mscReader w n)) as [Hstore Hlog].
    rewrite Hstore, Hlog. simpl. now rewrite <- app_assoc.
Qed.

Lemma readSideFiles_effect mscReader w :
  style (master (readSideFiles mscReader w)) = styleOfFile mscReader (style (master w)) /\
  chordList (master (readSideFiles mscReader w))
  = chordListOfFile mscReader (chordList (master w)) /\
  imageStore (readSideFiles mscReader w) = imagesOfFiles mscReader (imageStore w) /\
  log (readSideFiles mscReader w) = log w ++ sideFileCalls mscReader.
Proof.
  unfold readSideFiles, styleOfFile, chordListOfFile, imagesOfFiles, sideFileCalls.
  rewrite readImages_master. unfold readImages.
  destruct noImages; simpl negb; cbv iota.
  - unfold readChordList, readStyle.
    destruct (readChordListFile mscReader); destruct (readStyleFile mscReader);
      simpl; rewrite ?app_nil_r, <- ?app_assoc; repeat split; reflexivity.
  - match goal with |- context [fold_left (addImage ?r) ?l ?x] =>
      destruct (fold_addImage r l x) as [Hstore Hlog] end.
    rewrite Hstore, Hlog. clear Hstore Hlog.
    unfold readChordList, readStyle.
    destruct (readChordListFile mscReader); destruct (readStyleFile mscReader);
      simpl; rewrite <- ?app_assoc; repeat split; reflexivity.
Qed.





(** *** The current-generation reader, element by element *)


(** X11.  A [Revision] element is skipped: the read goes on after its end as
    if it had started there, whatever the element holds. *)
Lemma doRead_Revision_skipped (Hfwd : ForwardOnly) st e :
  Xml.readNextStartElement (xml st) = (true, e) ->
  Xml.name e = "Revision" ->
  doRead st = doRead (withXml (Xml.skipCurrentElement e) st).
Proof.
  intros Hnext Hname. unfold doRead at 1. simpl.
  rewrite Hnext, Hname. simpl.
  apply XmlFacts.readNextStartElement_remaining in Hnext as [_ Hlt].
  specialize (Hlt eq_refl).
  pose proof (XmlFacts.skipCurrentElement_remaining e).
  unfold doRead. apply doRead_loop_fuel; simpl; try assumption; lia.
Qed.

(** An element with any other name is not skipped: the loop asks the
    stream for the next start element from inside it. *)
Lemma doRead_unrecognized_not_skipped (Hfwd : ForwardOnly) st e :
  Xml.readNextStartElement (xml st) = (true, e) ->
  Xml.name e <> "programVersion" ->
  Xml.name e <> "programRevision" ->
  Xml.name e <> "Score" ->
  Xml.name e <> "Revision" ->
  doRead st = doRead (withXml e st).
Proof.
  intros Hnext H1 H2 H3 H4. unfold doRead at 1. simpl.
  rewrite Hnext.
  apply String.eqb_neq in H1, H2, H3, H4. rewrite H1, H2, H3, H4.
  apply XmlFacts.readNextStartElement_remaining in Hnext as [_ Hlt].
  specialize (Hlt eq_refl).
  unfold doRead. apply doRead_loop_fuel; simpl; try assumption; lia.
Qed.

(** C4, where the code departs from it.  On a root element whose first
    child has a name [doRead] does not know, [doRead] does not skip that
    child: it reads on inside it, meets its end, and returns NoError with
    the [Score] element that follows still unread and the element reader
    never called. *)
Theorem doRead_unrecognized_element_ends_read st scoreAttributes rest :
  doRead (withXml (Xml.init (unrecognizedThenScore scoreAttributes ++ rest)) st) =
  Returned
    (NoError,
     withXml
       {| Xml.pending := Xml.StartElement "Score" scoreAttributes
                         :: Xml.EndElement "Score" :: rest;
          Xml.current := Some (Xml.EndElement "futureTag");
          Xml.error := Xml.NoError;
          Xml.errorString := "";
          Xml.docName := "" |}
       st).
Proof. reflexivity. Qed.

(** *** Streams without a root element *)

Lemma read_loop_no_root hook e e' :
  FindsNoRoot e e' ->
  forall st fuel, xml st = e -> (Xml.remaining e < fuel)%nat ->
  read_loop fuel hook st =
  Returned (make_ret_text FileCorrupted (Xml.errorString e'), withXml e' st).
Proof.
  induction 1 as [e e' Hnext | e e1 e' Hnext Hname Hrest IH];
    intros st fuel Hxml Hfuel; (destruct fuel as [|fuel]; [lia|]);
    simpl; rewrite Hxml, Hnext.
  - reflexivity.
  - apply String.eqb_neq in Hname. rewrite Hname.
    apply XmlFacts.readNextStartElement_remaining in Hnext as [_ Hlt].
    specialize (Hlt eq_refl).
    pose proof (XmlFacts.skipCurrentElement_remaining e1) as Hskip.
    rewrite (IH (withXml (Xml.unknown e1) st) fuel eq_refl).
    + reflexivity.
    + unfold Xml.unknown. lia.
Qed.

(** The scan for the root always ends, one way or the other. *)
Lemma root_or_not n :
  forall e, (Xml.remaining e < n)%nat ->
  (exists e1, FindsRoot e e1) \/ (exists e', FindsNoRoot e e').
Proof.
  induction n as [|n IH]; intros e Hn; [lia|].
  destruct (Xml.readNextStartElement e) as [[|] e1] eqn:Hnext.
  - destruct (String.eqb (Xml.name e1) "museScore") eqn:Hname.
    + apply String.eqb_eq in Hname. left. exists e1.
      apply FindsRoot_here; assumption.
    + apply String.eqb_neq in Hname.
      pose proof (XmlFacts.readNextStartElement_remaining _ _ _ Hnext) as [_ Hlt].
      specialize (Hlt eq_refl).
      pose proof (XmlFacts.skipCurrentElement_remaining e1) as Hskip.
      destruct (IH (Xml.unknown e1)) as [[e2 H2]|[e2 H2]];
        [unfold Xml.unknown; lia| |].
      * left. exists e2. eapply FindsRoot_skip; eauto.
      * right. exists e2. eapply FindsNoRoot_skip; eauto.
  - right. exists e1. apply FindsNoRoot_end. exact Hnext.
Qed.

Lemma versionError_not_NoError st err :
  versionError st = Some err ->
  err = FileTooNew \/ err = FileTooOld \/ err = FileOld300Format.
Proof.
  unfold versionError.
  destruct (negb _); [|discriminate].
  destruct (_ >? _); [intros H; inversion H; auto|].
  destruct (_ <? _); [intros H; inversion H; auto|].
  destruct (_ =? _); [intros H; inversion H; auto|discriminate].
Qed.

Lemma runReader_returned_calls st err st' :
  runReader st = Returned (err, st') ->
  exists n, calls st' = calls st ++ readerCalls (bucket (mscVersion (score st))) n.
Proof.
  unfold runReader, bucket, callLegacy.
  destruct (mscVersion (score st) <=? 114).
  { destruct (read114 _ _ _) as [[[? ?] ?] ?]. intros H; inversion H; subst.
    exists 0%nat. reflexivity. }
  destruct (mscVersion (score st) <=? 207).
  { destruct (read206 _ _ _) as [[[? ?] ?] ?]. intros H; inversion H; subst.
    exists 0%nat. reflexivity. }
  destruct ((mscVersion (score st) <? 400) || testMode).
  { destruct (read302 _ _ _) as [[[? ?] ?] ?]. intros H; inversion H; subst.
    exists 0%nat. reflexivity. }
  intros H. apply doRead_loop_calls in H as [n Hn]. simpl in Hn.
  exists n. rewrite Hn, <- !app_assoc. reflexivity.
Qed.

Lemma read_no_root hook st e' :
  FindsNoRoot (xml st) e' ->
  read hook st =
  Returned (make_ret_text FileCorrupted (Xml.errorString e'), withXml e' st).
Proof.
  intros H. unfold read. eapply read_loop_no_root; eauto.
Qed.

(** X1.  A stream in which [read] finds no [museScore] element is reported
    as FileCorrupted with the diagnostic text of the stream; the score and
    the context are as they were and no collaborator was called. *)
Theorem read_without_root hook st e' :
  FindsNoRoot (xml st) e' ->
  exists st',
    read hook st = Returned (make_ret_text FileCorrupted (Xml.errorString e'), st') /\
    score st' = score st /\ ctx st' = ctx st /\ calls st' = calls st /\
    xml st' = e'.
Proof.
  intros H. exists (withXml e' st). rewrite (read_no_root hook st e' H).
  repeat split.
Qed.

(** X2.  [read] reports NoError only after it has found the root element,
    read a version from it that passes (or bypasses) the acceptance checks,
    and called one reader, once. *)
Theorem read_success_means_accepted hook st ret st' :
  read hook st = Returned (ret, st') ->
  code ret = NoError ->
  exists e1 v l k,
    FindsRoot (xml st) e1 /\
    declaredVersion e1 = Some v /\
    versionError (withScore (setMscVersion v (score st)) (withXml e1 st)) = None /\
    calls st' = calls st ++ l /\
    filter isReader l = [CallReader k].
Proof.
  intros Hread Hcode.
  destruct (root_or_not (S (Xml.remaining (xml st))) (xml st)) as [[e1 Hroot]|[e' Hno]];
    [lia| |].
  - rewrite (read_at_root hook st e1 Hroot) in Hread.
    unfold readRoot in Hread. simpl xml in Hread.
    destruct (declaredVersion e1) as [v|] eqn:Hv; [|discriminate].
    cbv zeta in Hread.
    destruct (versionError _) as [err|] eqn:Herr.
    + inversion Hread; subst. simpl in Hcode.
      apply versionError_not_NoError in Herr. destruct Herr as [?|[?|?]]; congruence.
    + destruct (runReader _) as [[err st2]| |] eqn:Hrun; try discriminate.
      simpl in Hread. inversion Hread; subst.
      apply runReader_returned_calls in Hrun as [n Hn].
      unfold applyStyleHook in Hn.
      exists e1, v.
      destruct hook as [h|]; simpl in Hn.
      * destruct ((v <? 400) || testMode); simpl in Hn.
        -- eexists (CallHookSetupDefaultStyle :: readerCalls _ n). eexists.
           repeat split; try eassumption.
           ++ simpl. rewrite Hn, <- app_assoc. reflexivity.
           ++ simpl. apply readerCalls_isReader.
        -- eexists (readerCalls _ n). eexists.
           repeat split; try eassumption. apply readerCalls_isReader.
      * eexists (readerCalls _ n). eexists.
        repeat split; try eassumption. apply readerCalls_isReader.
  - rewrite (read_no_root hook st e' Hno) in Hread.
    inversion Hread; subst. discriminate.
Qed.

(** *** What [doRead] can report *)


Lemma doRead_loop_without_Score fuel :
  forall st,
    noScoreElement (Xml.pending (xml st)) = true ->
    (Xml.remaining (xml st) < fuel)%nat ->
    exists st',
      doRead_loop fuel st = Returned (NoError, st') /\
      calls st' = calls st /\
      ctx st' = ctx st /\
      score st' =
      setMscoreVersion (mscoreVersion (score st'))
        (setMscoreRevision (mscoreRevision (score st')) (score st)).
Proof.
  induction fuel as [|fuel IH]; intros st Hno Hfuel; [lia|].
  doRead_step st;
    pose proof (XmlFacts.readNextStartElement_noScore _ _ _ Hno Hnext) as [Hno' Hname];
    try (pose proof (XmlFacts.readNextStartElement_remaining _ _ _ Hnext) as [_ Hlt];
         specialize (Hlt eq_refl));
    try (specialize (Hname eq_refl); congruence).
  - match goal with E : Xml.readText _ = _ |- _ =>
      pose proof (XmlFacts.readText_noScore _ _ _ Hno' E) as Hno2;
      apply XmlFacts.readText_remaining in E end.
    match goal with |- context [doRead_loop fuel ?s] =>
      destruct (IH s) as [st' [Hrun [Hc [Hx Hs]]]]; [exact Hno2|simpl; lia|] end.
    exists st'. split; [exact Hrun|]. simpl in *.
    repeat split; assumption.
  - match goal with E : Xml.readInt _ _ = _ |- _ =>
      pose proof (XmlFacts.readInt_noScore _ _ _ _ Hno' E) as Hno2;
      apply XmlFacts.readInt_remaining in E end.
    match goal with |- context [doRead_loop fuel ?s] =>
      destruct (IH s) as [st' [Hrun [Hc [Hx Hs]]]]; [exact Hno2|simpl; lia|] end.
    exists st'. split; [exact Hrun|]. simpl in *.
    repeat split; assumption.
  - pose proof (XmlFacts.skipCurrentElement_noScore _ Hno') as Hno2.
    pose proof (XmlFacts.skipCurrentElement_remaining e) as Hskip.
    match goal with |- context [doRead_loop fuel ?s] =>
      destruct (IH s) as [st' [Hrun [Hc [Hx Hs]]]]; [exact Hno2|simpl; lia|] end.
    exists st'. split; [exact Hrun|]. simpl in *. repeat split; assumption.
  - match goal with |- context [doRead_loop fuel ?s] =>
      destruct (IH s) as [st' [Hrun [Hc [Hx Hs]]]]; [exact Hno'|simpl; lia|] end.
    exists st'. split; [exact Hrun|]. simpl in *. repeat split; assumption.
  - exists (withXml e st). split; [reflexivity|]. simpl.
    repeat split. destruct (score st); reflexivity.
Qed.

(** X4.  On a stream in which no [Score] element starts, [doRead] returns
    NoError for any element reader: it calls no collaborator, leaves the
    context alone and changes nothing of the master score but the program
    version and the program revision. *)
Theorem doRead_without_Score st :
  noScoreElement (Xml.pending (xml st)) = true ->
  exists st',
    doRead st = Returned (NoError, st') /\
    calls st' = calls st /\
    ctx st' = ctx st /\
    score st' =
    setMscoreVersion (mscoreVersion (score st'))
      (setMscoreRevision (mscoreRevision (score st')) (score st)).
Proof.
  intros Hno. apply doRead_loop_without_Score; [exact Hno|lia].
Qed.

(** *** Which versions reach which reader *)

Lemma In_readerCalls k k' n : In (CallReader k') (readerCalls k n) -> k' = k.
Proof.
  destruct k; simpl; intros H;
    repeat (destruct H as [H|H]; [congruence|]); try contradiction.
  apply repeat_spec in H. discriminate.
Qed.

Lemma readerCalls_isReadCall k n : forallb isReadCall (readerCalls k n) = true.
Proof.
  destruct k; simpl; try reflexivity.
  induction n as [|n IH]; simpl; [reflexivity|exact IH].
Qed.

(** X5.  With version errors enforced, the readers see narrow ranges of
    versions: the 114 reader only version 114, the 206 reader 115 to 207,
    the 302 reader 208 to MSCVERSION without 300 (400 and above only in test
    mode), and [doRead] 400 to MSCVERSION and never in test mode. *)
Theorem enforced_reader_ranges hook st e1 v ret st' :
  FindsRoot (xml st) e1 ->
  declaredVersion e1 = Some v ->
  ignoreVersionError (ctx st) = false ->
  HookKeepsVersion ->
  read hook st = Returned (ret, st') ->
  exists l,
    calls st' = calls st ++ l /\
    (In (CallReader Read114) l -> v = 114) /\
    (In (CallReader Read206) l -> 115 <= v <= 207) /\
    (In (CallReader Read302) l ->
       208 <= v <= MSCVERSION /\ v <> 300 /\ (v < 400 \/ testMode = true)) /\
    (In (CallReader Read400) l -> 400 <= v <= MSCVERSION /\ testMode = false).
Proof.
  intros Hroot Hv Hign Hhook Hread.
  rewrite (read_at_root hook st e1 Hroot) in Hread.
  unfold readRoot in Hread. simpl xml in Hread. rewrite Hv in Hread.
  cbv zeta in Hread.
  destruct (versionError _) as [err|] eqn:Herr.
  - inversion Hread; subst. exists []. simpl. rewrite app_nil_r.
    repeat split; contradiction.
  - destruct (runReader _) as [[err st2]| |] eqn:Hrun; try discriminate.
    simpl in Hread. inversion Hread; subst. clear Hread.
    apply runReader_returned_calls in Hrun as [n Hn].
    rewrite (applyStyleHook_version Hhook) in Hn. simpl in Hn.
    unfold versionError in Herr. simpl in Herr. rewrite Hign in Herr.
    simpl in Herr.
    destruct (Z.gtb_spec v MSCVERSION) as [|Hle]; [discriminate|].
    destruct (Z.ltb_spec v 114) as [|Hge]; [discriminate|].
    destruct (Z.eqb_spec v 300) as [|Hne]; [discriminate|]. clear Herr.
    assert (Hin : forall k l0,
              (forall c, In c l0 -> isReader c = false) ->
              In (CallReader k) (l0 ++ readerCalls (bucket v) n) -> k = bucket v).
    { intros k l0 Hl0 H. apply in_app_or in H as [H|H].
      - apply Hl0 in H. discriminate.
      - apply In_readerCalls in H. exact H. }
    assert (Hshape : exists l0,
              (forall c, In c l0 -> isReader c = false) /\
              calls (applyStyleHook hook
                       (withScore (setMscVersion v (score st)) (withXml e1 st)))
              = calls st ++ l0).
    { unfold applyStyleHook. destruct hook as [h|]; simpl.
      - destruct ((v <? 400) || testMode); simpl.
        + exists [CallHookSetupDefaultStyle]. split; [|reflexivity].
          intros c [Hc|[]]; subst; reflexivity.
        + exists []. split; [intros c []|now rewrite app_nil_r].
      - exists []. split; [intros c []|now rewrite app_nil_r]. }
    destruct Hshape as [l0 [Hl0 Hcalls]].
    exists (l0 ++ readerCalls (bucket v) n). simpl.
    split; [rewrite Hn, Hcalls, <- app_assoc; reflexivity|].
    unfold bucket in Hin.
    split; [|split; [|split]];
      intros Hk; apply (Hin _ _ Hl0) in Hk; revert Hk;
      destruct (Z.leb_spec v 114); try discriminate; try lia;
      destruct (Z.leb_spec v 207); try discriminate; try lia;
      destruct (Z.ltb_spec v 400); simpl; try discriminate; try lia;
      destruct testMode; try discriminate; intros _;
      repeat split; try lia; auto.
Qed.

(** *** The settings handed back, the audio, the order of the calls *)

Lemma read_loop_calls_shape hook fuel :
  forall st ret st',
    read_loop fuel hook st = Returned (ret, st') ->
    exists l, calls st' = calls st ++ l /\ forallb isReadCall l = true.
Proof.
  induction fuel as [|fuel IH]; intros st ret st'; [discriminate|].
  simpl. destruct (Xml.readNextStartElement (xml st)) as [[|] e].
  - destruct (String.eqb (Xml.name e) "museScore").
    + unfold readRoot. simpl xml.
      destruct (declaredVersion e) as [v|]; [|discriminate]. cbv zeta.
      destruct (versionError _).
      * intros H; inversion H; subst. exists []. simpl. now rewrite app_nil_r.
      * destruct (runReader _) as [[err st2]| |] eqn:Hrun; try discriminate.
        simpl. intros H; inversion H; subst. simpl.
        apply runReader_returned_calls in Hrun as [n Hn]. rewrite Hn.
        unfold applyStyleHook. destruct hook as [h|]; simpl.
        -- destruct ((v <? 400) || testMode); simpl.
           ++ eexists (CallHookSetupDefaultStyle :: readerCalls _ n).
              rewrite <- app_assoc. split; [reflexivity|].
              simpl. apply readerCalls_isReadCall.
           ++ eexists. split; [reflexivity|apply readerCalls_isReadCall].
        -- eexists. split; [reflexivity|apply readerCalls_isReadCall].
    + intros H. apply IH in H. exact H.
  - intros H; inversion H; subst. exists []. simpl. now rewrite app_nil_r.
Qed.

(** *** The loader: the excerpts a load ends with *)

(** C7.  Let the score stream of an opened package declare version [v], and
    let the readers leave the version of the master alone.  Then [read]
    returns with the version of the master at [v], and [loadMscz] returns
    the same result.  If [v] is at least 400, [loadMscz] appends one excerpt
    per excerpt name of the package, in order, each named after its entry
    and carrying the track mapping of its part's parse context; when the
    readers leave the excerpts alone the master ends with those it had
    followed by these, so a master that had none owns exactly as many as
    there are names.  If [v] is below 400, [loadMscz] appends nothing and
    the calls of the whole load are those of the side files, of [read] and
    of the audio, none of the excerpt step; when the readers leave the
    excerpts alone a master that had none still has none. *)
Theorem loadMscz_excerpts w mscReader ignore e1 v :
  isOpened mscReader = true ->
  let w1 := readSideFiles mscReader w in
  let st0 := scoreReadState mscReader ignore w1 in
  FindsRoot (xml st0) e1 ->
  declaredVersion e1 = Some v ->
  ForwardOnly ->
  ReadersKeep mscVersion ->
  AddExcerptAppends ->
  LinkMeasuresKeepsExcerpts ->
  exists ret st w',
    read (Some (scoreStyleHook mscReader w1)) st0 = Returned (ret, st) /\
    loadMscz w mscReader ignore = Returned (ret, w') /\
    mscVersion (score st) = v /\
    (400 <= v ->
       exists exs,
         excerpts (master w') = excerpts (score st) ++ exs /\
         map excerptName exs = excerptNames mscReader /\
         Forall (ReadFromPart mscReader (ctx st)) exs /\
         (ReadersKeep excerpts ->
            excerpts (master w') = excerpts (master w) ++ exs /\
            (excerpts (master w) = [] ->
               map excerptName (excerpts (master w')) = excerptNames mscReader /\
               List.length (excerpts (master w'))
               = List.length (excerptNames mscReader)))) /\
    (v < 400 ->
       excerpts (master w') = excerpts (score st) /\
       (exists l rest,
          log w' = log w ++ sideFileCalls mscReader ++ l ++ rest /\
          forallb isReadCall l = true /\
          audioCalls rest) /\
       (ReadersKeep excerpts ->
          excerpts (master w') = excerpts (master w) /\
          (excerpts (master w) = [] -> excerpts (master w') = []))).
Proof.
  intros Hopen w1 st0 Hroot Hv Hfwd Hkeep Hadd Hlink.
  destruct (read_returns_at_root Hfwd (Some (scoreStyleHook mscReader w1))
              st0 e1 v Hroot Hv) as [ret [st Hread]].
  pose proof (read_sets_declared_version _ st0 e1 v ret st Hkeep Hroot Hv Hread)
    as Hver.
  assert (Hexc : ReadersKeep excerpts -> excerpts (score st) = excerpts (master w)).
  { intros Hk.
    assert (Hset : NotWrittenByRead excerpts) by (repeat split; reflexivity).
    rewrite (read_keeps excerpts _ st0 e1 v ret st Hk Hset Hroot Hv Hread).
    cbn [excerpts setMscVersion]. unfold st0. cbn [score scoreReadState].
    unfold w1. apply (readSideFiles_keeps excerpts); reflexivity. }
  exists ret, st. 
  rewrite (loadMscz_opened w mscReader ignore Hopen). fold w1. fold st0. rewrite Hread.
  cbn [omap fst snd]. eexists. split; [reflexivity|]. split; [reflexivity|].
  split; [exact Hver|].
  rewrite afterRead_excerpts. unfold readExcerpts. cbn [master]. rewrite Hver.
  split.
  - intros Hge. destruct (Z.geb_spec v 400) as [_|]; [|lia].
    match goal with |- context [fold_left ?f ?l ?x] =>
      destruct (fold_readExcerpt_excerpts mscReader (ctx st) l Hadd Hlink x)
        as [exs [Hexs [Hnames Hparts]]] end.
    exists exs. rewrite Hexs. cbn [master].
    split; [reflexivity|]. split; [exact Hnames|]. split; [exact Hparts|].
    intros Hk. rewrite (Hexc Hk). split; [reflexivity|].
    intros Hnone. rewrite Hnone. cbn [app].
    split; [exact Hnames|]. rewrite <- Hnames. now rewrite length_map.
  - intros Hlt. destruct (Z.geb_spec v 400) as [|_]; [lia|].
    split; [reflexivity|].
    split.
    + destruct (afterRead_log mscReader w1 st) as [rest [Haudio Hlog]].
      pose proof Hread as Hshape. unfold read in Hshape.
      apply read_loop_calls_shape in Hshape as [l [Hl Hshape]].
      change (calls st0) with (log w1) in Hl.
      destruct (readSideFiles_effect mscReader w) as [_ [_ [_ Hside]]].
      fold w1 in Hside. rewrite Hside in Hl.
      exists l, rest. rewrite Hlog, Hver, Hl, <- !app_assoc.
      destruct (Z.geb_spec v 400); [lia|].
      split; [reflexivity|]. split; assumption.
    + intros Hk. cbn [master]. rewrite (Hexc Hk). split; [reflexivity|].
      intros Hnone. exact Hnone.
Qed.

(** *** The loader: the settings handed back and the audio *)

(** X6.  A load that gets past the open check hands back the compatibility
    settings of the master's read context, whatever it reports, in place of
    those the caller held; after a version error or a stream without root
    these are the settings of a new context.  A package that is not open is
    refused with FileOpenError and its path, and nothing is touched. *)
Theorem loadMscz_settings w mscReader ignore :
  let w1 := readSideFiles mscReader w in
  let hook := Some (scoreStyleHook mscReader w1) in
  let st0 := scoreReadState mscReader ignore w1 in
  (isOpened mscReader = false ->
     loadMscz w mscReader ignore
     = Returned (make_ret_text FileOpenError (filePath mscReader), w)) /\
  (isOpened mscReader = true ->
     (forall ret st, read hook st0 = Returned (ret, st) ->
        exists w',
          loadMscz w mscReader ignore = Returned (ret, w') /\
          settingsCompat w' = settingCompat (ctx st)) /\
     (forall e1 v err,
        FindsRoot (xml st0) e1 ->
        declaredVersion e1 = Some v ->
        versionError (withScore (setMscVersion v (score st0)) (withXml e1 st0)) = Some err ->
        exists w',
          loadMscz w mscReader ignore = Returned (make_ret err, w') /\
          settingsCompat w' = noSettings) /\
     (forall e', FindsNoRoot (xml st0) e' ->
        exists w',
          loadMscz w mscReader ignore
          = Returned (make_ret_text FileCorrupted (Xml.errorString e'), w') /\
          settingsCompat w' = noSettings)).
Proof.
  intros w1 hook st0. split.
  - intros Hclosed. unfold loadMscz. rewrite Hclosed. reflexivity.
  - intros Hopen.
    pose proof (loadMscz_opened w mscReader ignore Hopen) as Hload.
    fold w1 in Hload. fold hook in Hload. fold st0 in Hload.
    assert (Hany : forall ret st, read hook st0 = Returned (ret, st) ->
              exists w',
                loadMscz w mscReader ignore = Returned (ret, w') /\
                settingsCompat w' = settingCompat (ctx st)).
    { intros ret st Hread. rewrite Hload, Hread. simpl.
      eexists. split; reflexivity. }
    split; [exact Hany|]. split.
    + intros e1 v err Hroot Hv Herr.
      exact (Hany _ _ (read_rejected hook st0 e1 v err Hroot Hv Herr)).
    + intros e' Hno. exact (Hany _ _ (read_no_root hook st0 e' Hno)).
Qed.

(** X7.  The audio stream is attached only to a master that holds an audio
    object when the excerpts have been read: such a master ends with the
    bytes of the package's audio stream, whatever the load reports, and a
    master without an audio object ends without one. *)
Theorem loadMscz_audio w mscReader ignore ret st :
  isOpened mscReader = true ->
  let w1 := readSideFiles mscReader w in
  read (Some (scoreStyleHook mscReader w1)) (scoreReadState mscReader ignore w1)
  = Returned (ret, st) ->
  ExcerptStepKeeps audio ->
  exists w',
    loadMscz w mscReader ignore = Returned (ret, w') /\
    audio (master w') =
    match audio (score st) with
    | Some _ => Some (readAudioFile mscReader)
    | None => None
    end.
Proof.
  intros Hopen w1 Hread Hkeep.
  rewrite (loadMscz_opened w mscReader ignore Hopen). fold w1. rewrite Hread.
  cbn [omap fst snd]. eexists. split; [reflexivity|].
  unfold afterRead, moveSettings, readAudio. cbn [master].
  match goal with |- context [readExcerpts ?r ?c ?x] =>
    pose proof (readExcerpts_keeps audio r c x Hkeep) as Hex;
    set (wx := readExcerpts r c x) in * end.
  cbn [master] in Hex. rewrite <- Hex. clear Hex.
  destruct (audio (master wx)) eqn:E; [reflexivity|exact E].
Qed.

(** X8.  A stream without root leaves the version of the master as it was
    before the load, and it is this version that decides on the excerpts: a
    master that came in with a version of 400 or more has every excerpt of
    the package read and appended although the load reports
    FileCorrupted; one that came in below 400 has none. *)
Theorem loadMscz_without_root_excerpts w mscReader ignore e' :
  isOpened mscReader = true ->
  let w1 := readSideFiles mscReader w in
  FindsNoRoot (xml (scoreReadState mscReader ignore w1)) e' ->
  exists w',
    loadMscz w mscReader ignore
    = Returned (make_ret_text FileCorrupted (Xml.errorString e'), w') /\
    (400 <= mscVersion (master w) ->
       (exists rest,
          audioCalls rest /\
          log w' = log w1 ++ flat_map excerptCalls (excerptNames mscReader) ++ rest) /\
       (AddExcerptAppends -> LinkMeasuresKeepsExcerpts ->
        exists exs,
          excerpts (master w') = excerpts (master w) ++ exs /\
          map excerptName exs = excerptNames mscReader)) /\
    (mscVersion (master w) < 400 ->
       excerpts (master w') = excerpts (master w) /\
       exists rest, audioCalls rest /\ log w' = log w1 ++ rest).
Proof.
  intros Hopen w1 Hno.
  rewrite (loadMscz_opened w mscReader ignore Hopen). fold w1.
  rewrite (read_no_root _ _ e' Hno). cbn [omap fst snd].
  eexists. split; [reflexivity|].
  assert (Hver : mscVersion (master w1) = mscVersion (master w)).
  { unfold w1. apply (readSideFiles_keeps mscVersion); reflexivity. }
  assert (Hexc : excerpts (master w1) = excerpts (master w)).
  { unfold w1. apply (readSideFiles_keeps excerpts); reflexivity. }
  set (st := withXml e' (scoreReadState mscReader ignore w1)).
  destruct (afterRead_log mscReader w1 st) as [rest [Haudio Hlog]].
  pose proof (afterRead_excerpts mscReader w1 st) as Hafter.
  unfold readExcerpts in Hafter. cbn [master] in Hafter.
  change (mscVersion (score st)) with (mscVersion (master w1)) in Hlog, Hafter.
  change (calls st) with (log w1) in Hlog.
  rewrite Hver in Hlog, Hafter.
  split.
  - intros Hge. destruct (Z.geb_spec (mscVersion (master w)) 400); [|lia].
    split; [exists rest; split; assumption|].
    intros Hadd Hlink.
    match type of Hafter with context [fold_left ?f ?l ?x] =>
      destruct (fold_readExcerpt_excerpts mscReader (ctx st) l Hadd Hlink x)
        as [exs [Hexs [Hnames _]]] end.
    exists exs. rewrite Hafter, Hexs. cbn [master].
    change (excerpts (score st)) with (excerpts (master w1)). rewrite Hexc.
    split; [reflexivity|exact Hnames].
  - intros Hlt. destruct (Z.geb_spec (mscVersion (master w)) 400); [lia|].
    split; [rewrite Hafter; exact Hexc|].
    exists rest. split; [assumption|]. rewrite Hlog. reflexivity.
Qed.

(** X9.  The calls of a load come in four parts, in this order: the side
    files, the calls of [read] (style hook, [checkChordList], readers), the
    excerpt step for every excerpt name or for none, and the audio. *)
Theorem loadMscz_call_order w mscReader ignore ret w' :
  isOpened mscReader = true ->
  loadMscz w mscReader ignore = Returned (ret, w') ->
  exists l ex rest,
    log w' = log w ++ sideFileCalls mscReader ++ l ++ ex ++ rest /\
    forallb isReadCall l = true /\
    (ex = [] \/ ex = flat_map excerptCalls (excerptNames mscReader)) /\
    audioCalls rest.
Proof.
  intros Hopen. rewrite (loadMscz_opened w mscReader ignore Hopen).
  set (w1 := readSideFiles mscReader w).
  destruct (read _ _) as [[ret0 st]| |] eqn:Hread; try discriminate.
  cbn [omap fst snd]. intros H.
  assert (Hw : w' = afterRead mscReader w1 st) by congruence.
  subst w'. clear H.
  unfold read in Hread. apply read_loop_calls_shape in Hread as [l [Hl Hshape]].
  change (calls (scoreReadState mscReader ignore w1)) with (log w1) in Hl.
  destruct (readSideFiles_effect mscReader w) as [_ [_ [_ Hlog]]].
  fold w1 in Hlog. rewrite Hlog in Hl.
  destruct (afterRead_log mscReader w1 st) as [rest [Haudio Hafter]].
  exists l.
  exists (if mscVersion (score st) >=? 400
          then flat_map excerptCalls (excerptNames mscReader) else []).
  exists rest.
  rewrite Hafter, Hl, <- !app_assoc.
  split; [reflexivity|]. split; [exact Hshape|]. split; [|exact Haudio].
  destruct (mscVersion (score st) >=? 400); [now right|now left].
Qed.

(** *** When a load returns *)

Lemma read_outcome (Hfwd : ForwardOnly) hook st :
  (read hook st = OutOfRange <->
   exists e1, FindsRoot (xml st) e1 /\
              Str.count "." (Xml.attribute e1 "version") = 0%nat) /\
  read hook st <> OutOfFuel.
Proof.
  destruct (root_or_not (S (Xml.remaining (xml st))) (xml st)) as [[e1 Hroot]|[e' Hno]];
    [lia| |].
  - assert (Hiff : read hook st = OutOfRange <-> declaredVersion e1 = None).
    { rewrite (read_at_root hook st e1 Hroot). unfold readRoot. simpl xml.
      destruct (declaredVersion e1) as [v|]; [|tauto].
      split; [|discriminate]. cbv zeta.
      destruct (versionError _); [discriminate|].
      match goal with |- context [runReader ?s] =>
        pose proof (runReader_not_OutOfRange s) end.
      destruct (runReader _); simpl; congruence. }
    split.
    + rewrite Hiff, declaredVersion_None. split.
      * intros H. exists e1. split; assumption.
      * intros [e2 [Hroot2 Hcount]].
        assert (Hout : read hook st = OutOfRange).
        { rewrite (read_at_root hook st e2 Hroot2). unfold readRoot. simpl xml.
          apply declaredVersion_None in Hcount. rewrite Hcount. reflexivity. }
        apply Hiff in Hout. apply declaredVersion_None. exact Hout.
    + rewrite (read_at_root hook st e1 Hroot). unfold readRoot. simpl xml.
      destruct (declaredVersion e1) as [v|]; [|discriminate]. cbv zeta.
      destruct (versionError _); [discriminate|].
      match goal with |- context [runReader ?s] =>
        destruct (runReader_calls Hfwd s) as [err [st' [n [Hrun _]]]] end.
      rewrite Hrun. discriminate.
  - rewrite (read_no_root hook st e' Hno). split; [|discriminate].
    split; [discriminate|].
    intros [e1 [Hroot Hcount]].
    exfalso. clear Hcount. revert e' Hno.
    induction Hroot as [e e1 Hnext Hname | e e1 e2 Hnext Hname Hrest IH];
      intros e' Hno; inversion Hno as [? ? Hend | ? e3 ? Hnext' Hname' Hrest'];
      subst; try congruence.
    rewrite Hnext in Hnext'. inversion Hnext'; subst. eapply IH; eauto.
Qed.

(** X10.  With a forward-only element reader every load comes to an end:
    it returns a result, unless the package is open and the root element of
    its score has a version attribute without a '.', in which case, and in
    no other, it runs into the out-of-range access. *)
Theorem loadMscz_returns_unless_no_minor w mscReader ignore :
  ForwardOnly ->
  let st0 := scoreReadState mscReader ignore (readSideFiles mscReader w) in
  (loadMscz w mscReader ignore = OutOfRange <->
   isOpened mscReader = true /\
   exists e1, FindsRoot (xml st0) e1 /\
              Str.count "." (Xml.attribute e1 "version") = 0%nat) /\
  ((exists r, loadMscz w mscReader ignore = Returned r) \/
   loadMscz w mscReader ignore = OutOfRange).
Proof.
  intros Hfwd st0.
  destruct (isOpened mscReader) eqn:Hopen.
  - rewrite (loadMscz_opened w mscReader ignore Hopen). fold st0.
    match goal with |- context [read ?h st0] =>
      destruct (read_outcome Hfwd h st0) as [Hrange Hfuel];
      destruct (read h st0) as [[ret st]| |] eqn:Hread end.
    + split; [|left; eexists; reflexivity].
      split; [discriminate|]. intros [_ H]. apply Hrange in H. discriminate.
    + split; [|now right].
      split; [|reflexivity]. intros _. split; [reflexivity|].
      apply Hrange. reflexivity.
    + congruence.
  - unfold loadMscz. rewrite Hopen. simpl. split.
    + split; [discriminate|]. intros [H _]. discriminate.
    + left. eexists. reflexivity.
Qed.

(** *** A rejected score of an old generation *)

(** X12.  A load rejected for its version, when that version is below 400,
    writes the version into the master and does nothing else to it after
    the side files, apart from attaching the audio to a master that holds
    an audio object: no hook, no reader and no excerpt step is called, and
    the content, the program version, the flags and the excerpts of the
    master are as they were. *)
Theorem loadMscz_rejected_frame w mscReader ignore e1 v err :
  isOpened mscReader = true ->
  let w1 := readSideFiles mscReader w in
  let st0 := scoreReadState mscReader ignore w1 in
  FindsRoot (xml st0) e1 ->
  declaredVersion e1 = Some v ->
  versionError (withScore (setMscVersion v (score st0)) (withXml e1 st0)) = Some err ->
  v < 400 ->
  exists w',
    loadMscz w mscReader ignore = Returned (make_ret err, w') /\
    master w' =
    match audio (master w1) with
    | Some _ => setAudioData (readAudioFile mscReader) (setMscVersion v (master w1))
    | None => setMscVersion v (master w1)
    end /\
    log w' =
    log w1 ++ match audio (master w1) with
              | Some _ => [CallAudioSetData]
              | None => []
              end.
Proof.
  intros Hopen w1 st0 Hroot Hv Herr Hlt.
  rewrite (loadMscz_opened w mscReader ignore Hopen). fold w1. fold st0.
  rewrite (read_rejected _ st0 e1 v err Hroot Hv Herr). cbn [omap fst snd].
  eexists. split; [reflexivity|].
  unfold afterRead, moveSettings, readAudio, readExcerpts.
  cbn [master log score calls withScore withXml mscVersion setMscVersion].
  destruct (Z.geb_spec v 400); [lia|].
  cbn [master log audio setMscVersion].
  change (score st0) with (master w1). change (calls st0) with (log w1).
  destruct (audio (master w1)); cbn [master log withMaster].
  - split; reflexivity.
  - split; [reflexivity|now rewrite app_nil_r].
Qed.

End Properties.

(** ** Concrete loads *)

Lemma Demo_ForwardOnly : @ForwardOnly Demo.model Demo.collaborators.
Proof.
  intros m e c ok m' e' c'. simpl. unfold Demo.scoreUnlessMarked.
  destruct (String.eqb _ _); intros H; inversion H; subst; [lia|].
  apply XmlFacts.skipCurrentElement_remaining.
Qed.

(** In the demo only the style hook writes the master, and only its
    style. *)
Lemma Demo_ReadersKeep {A : Type} (f : Demo.MScore -> A) :
  (forall s m, f (setStyle s m) = f m) ->
  @ReadersKeep Demo.model Demo.collaborators A f.
Proof.
  intros Hstyle. unfold ReadersKeep, scoreOf. simpl.
  split; [intros h m; apply Hstyle|].
  split; [reflexivity|].
  split; [reflexivity|]. split; [reflexivity|]. split; [reflexivity|].
  intros m e c. unfold Demo.scoreUnlessMarked.
  destruct (String.eqb _ _); reflexivity.
Qed.

Example version_4_00 : Str.split "." "4.00" = ["4"; "00"].
Proof. reflexivity. Qed.

Example version_without_minor : Str.split "." "4" = ["4"].
Proof. reflexivity. Qed.

Example declared_3_02 :
  declaredVersion (Demo.atRoot "3.02" []) = Some 302.
Proof. reflexivity. Qed.

(** The version is an [int]: a number too long for it comes out wrapped. *)
Example declared_wraps_below_zero :
  declaredVersion (Demo.atRoot "30000000.00" []) = Some (-1294967296).
Proof. reflexivity. Qed.

Example declared_wraps_to_400 :
  declaredVersion (Demo.atRoot "42949676.96" []) = Some 400.
Proof. reflexivity. Qed.

Example declared_wraps_to_114 :
  declaredVersion (Demo.atRoot "42949674.10" []) = Some 114.
Proof. reflexivity. Qed.

Example declared_wraps_above_zero :
  declaredVersion (Demo.atRoot "-30000000.00" []) = Some 1294967296.
Proof. reflexivity. Qed.

(** So a version of thirty million is reported as too old, not too new. *)
Example wrapped_version_is_too_old :
  omap fst (Demo.run_loadMscz Demo.world0 (Demo.package "30000000.00" [] []) false)
  = Returned (make_ret FileTooOld).
Proof. reflexivity. Qed.

Example wrapped_version_is_accepted :
  omap fst
    (Demo.run_loadMscz Demo.world0 (Demo.package "42949676.96" Demo.oneScore []) false)
  = Returned (make_ret NoError).
Proof. reflexivity. Qed.

Example too_old :
  omap fst (Demo.run_loadMscz Demo.world0 (Demo.package "1.13" [] []) false)
  = Returned (make_ret FileTooOld).
Proof. reflexivity. Qed.

Example old_300_format :
  omap fst (Demo.run_loadMscz Demo.world0 (Demo.package "3.00" [] []) false)
  = Returned (make_ret FileOld300Format).
Proof. reflexivity. Qed.

Example old_300_format_ignored :
  omap fst (Demo.run_loadMscz Demo.world0 (Demo.package "3.00" [] []) true)
  = Returned (make_ret NoError).
Proof. reflexivity. Qed.

Example too_new_ignored_runs_doRead :
  omap (fun r => log (snd r))
    (Demo.run_loadMscz Demo.world0 (Demo.package "5.00" Demo.oneScore []) true)
  = Returned [CallCheckChordList; CallReader Read400; CallReadScore400].
Proof. reflexivity. Qed.

(** A score element that the element reader refuses is reported ... *)
Example refused_score_is_reported :
  omap fst
    (Demo.run_loadMscz Demo.world0
       (Demo.package "4.00"
          [Xml.StartElement "Score" [("ok", "no")]; Xml.EndElement "Score"] [])
       false)
  = Returned (make_ret FileBadFormat).
Proof. reflexivity. Qed.

(** ... unless an element unknown to [doRead] stands before it. *)
Example refused_score_behind_unrecognized_element :
  omap fst
    (Demo.run_loadMscz Demo.world0
       (Demo.package "4.00" (unrecognizedThenScore [("ok", "no")]) [])
       false)
  = Returned (make_ret NoError).
Proof. reflexivity. Qed.

(** An unknown element with a refused score inside it yields an error. *)
Example refused_score_inside_unrecognized_element :
  omap fst
    (Demo.run_loadMscz Demo.world0
       (Demo.package "4.00"
          [Xml.StartElement "futureTag" [];
           Xml.StartElement "Score" [("ok", "no")]; Xml.EndElement "Score";
           Xml.EndElement "futureTag"] [])
       false)
  = Returned (make_ret FileBadFormat).
Proof. reflexivity. Qed.

(** Version 5.00 against a build that understands 4.00. *)
Lemma read_version_acceptance_witness :
  Demo.run_read None (Demo.state0 "5.00" [] false)
  = Returned
      (make_ret FileTooNew,
       withScore (setMscVersion 500 Demo.master0)
         (withXml (Demo.atRoot "5.00" []) (Demo.state0 "5.00" [] false))).
Proof.
  destruct (@read_version_acceptance Demo.model Demo.collaborators None
              (Demo.state0 "5.00" [] false) (Demo.atRoot "5.00" []) 500)
    as [H _].
  - apply FindsRoot_here; reflexivity.
  - reflexivity.
  - destruct (H eq_refl) as [Hnew _]. apply Hnew. reflexivity.
Defined.

(** The version attribute "4" has no minor part. *)
Lemma read_version_needs_minor_witness :
  Demo.run_read None (Demo.state0 "4" [] false) = OutOfRange.
Proof.
  apply (@read_version_needs_minor Demo.model Demo.collaborators None
           (Demo.state0 "4" [] false) (Demo.atRoot "4" [])).
  - apply FindsRoot_here; reflexivity.
  - reflexivity.
Defined.

(** Version 3.02 goes to the 302 reader, after the style hook. *)
Lemma read_dispatch_witness :
  exists ret st' l,
    Demo.run_read (Some (Demo.hook0 "3.02" [])) (Demo.state0 "3.02" [] false)
    = Returned (ret, st') /\
    calls st' = [CallHookSetupDefaultStyle] ++ l /\
    filter isReader l = [CallReader Read302].
Proof.
  refine (proj2 (proj2 (proj2 (proj2
    (@read_dispatch Demo.model Demo.collaborators (Some (Demo.hook0 "3.02" []))
       (Demo.state0 "3.02" [] false) (Demo.atRoot "3.02" []) 302 _ _ _ _ _))))).
  - apply FindsRoot_here; reflexivity.
  - reflexivity.
  - reflexivity.
  - intros h m. reflexivity.
  - exact Demo_ForwardOnly.
Defined.

(** Version 3.02 with a hook: the hook is the first call, the reader the
    next. *)
Lemma read_style_hook_timing_witness :
  exists ret st' k l',
    Demo.run_read (Some (Demo.hook0 "3.02" [])) (Demo.state0 "3.02" [] false)
    = Returned (ret, st') /\
    calls st' = CallHookSetupDefaultStyle :: l' /\
    filter isReader l' = [CallReader k] /\
    filter isHook l' = [].
Proof.
  destruct (@read_style_hook_timing Demo.model Demo.collaborators
              (Some (Demo.hook0 "3.02" [])) (Demo.state0 "3.02" [] false)
              (Demo.atRoot "3.02" []) 302)
    as [ret [st' [l [Hread [Hcalls [_ [Hwith _]]]]]]].
  - apply FindsRoot_here; reflexivity.
  - reflexivity.
  - exact Demo_ForwardOnly.
  - destruct (Hwith _ eq_refl eq_refl) as [k [l' [Hl [Hreader [Hhook _]]]]];
      [left; reflexivity|].
    exists ret, st', k, l'. rewrite Hl in Hcalls.
    split; [exact Hread|]. split; [exact Hcalls|]. split; assumption.
Defined.

(** C8, as the specification words it, fails: version 3.00 is below 400 and
    a hook is supplied, yet the load is rejected before the hook is
    reached. *)
Lemma hook_not_called_on_rejected_version_counterexample :
  ~ @HookCalledIffBelow400 Demo.model Demo.collaborators
      (Some (Demo.hook0 "3.00" [])) (Demo.state0 "3.00" [] false).
Proof.
  intros H.
  edestruct (H (Demo.atRoot "3.00" []) 300) as [l [Hcalls [_ Hin]]].
  - apply FindsRoot_here; reflexivity.
  - reflexivity.
  - reflexivity.
  - assert (Hl : In CallHookSetupDefaultStyle l).
    { apply Hin. split; [discriminate|left; reflexivity]. }
    destruct l as [|c l]; [exact Hl|discriminate Hcalls].
Qed.

(** A 4.00 score with one part: both flags are false after the load. *)
Lemma flags_after_load_witness :
  exists ret w',
    Demo.run_loadMscz Demo.world0 (Demo.package "4.00" Demo.oneScore ["Violin"]) false
    = Returned (ret, w') /\
    excerptsChanged (master w') = false /\
    autosaveDirty (master w') = false.
Proof.
  destruct (@flags_after_load Demo.model Demo.collaborators Demo.world0
              (Demo.package "4.00" Demo.oneScore ["Violin"]) false
              (Demo.atRoot "4.00" Demo.oneScore) 400)
    as [Hacc _].
  - reflexivity.
  - apply FindsRoot_here; reflexivity.
  - reflexivity.
  - exact Demo_ForwardOnly.
  - destruct (Hacc eq_refl) as [ret [st' [_ [_ [_ Hload]]]]].
    destruct Hload as [w' Hw'].
    + split; intros; reflexivity.
    + split; intros; reflexivity.
    + exists ret, w'. exact Hw'.
Defined.

(** C3, as the specification words it, fails: a load that is rejected as too
    old leaves the master marked for autosave as it was before. *)
Lemma flags_after_rejected_load_counterexample :
  ~ @FlagsClearedAfterLoad Demo.model Demo.collaborators
      Demo.world0 (Demo.package "1.13" [] []) false.
Proof.
  intros H.
  edestruct H as [_ Hdirty].
  - reflexivity.
  - discriminate.
  - discriminate Hdirty.
Qed.

(** The part reader of the demo reports a bad format; the load does not, and
    it goes on to the audio. *)
Lemma loadMscz_returns_read_result_witness :
  exists w',
    Demo.run_loadMscz Demo.worldWithAudio
      (Demo.packageOf (Demo.scoreFile "4.00" Demo.oneScore) ["Violin"]) false
    = Returned (make_ret NoError, w') /\
    log w' =
    [CallCheckChordList; CallReader Read400; CallReadScore400]
    ++ excerptCalls "Violin" ++ [CallAudioSetData] /\
    audio (master w') = Some [Byte.x07].
Proof.
  destruct (proj2 (@loadMscz_returns_read_result Demo.model Demo.collaborators
                     Demo.worldWithAudio
                     (Demo.packageOf (Demo.scoreFile "4.00" Demo.oneScore) ["Violin"])
                     false) eq_refl) as [_ H].
  destruct (H _ _ eq_refl) as [w' [Hload [Hlogx [Hmaster Hlog]]]].
  exists w'. split; [exact Hload|]. split.
  - rewrite Hlog, Hlogx. reflexivity.
  - rewrite Hmaster. reflexivity.
Defined.

(** C5, as the specification words it for every package, fails: a package
    that is not open is answered with FileOpenError, whatever [read] makes
    of its score stream. *)
Lemma closed_package_result_counterexample :
  ~ @ReturnsReadResult Demo.model Demo.collaborators
      Demo.world0 Demo.closedPackage false.
Proof.
  intros H. vm_compute in H. discriminate H.
Qed.

(** Two excerpt names, two excerpts, in order. *)
Lemma loadMscz_excerpts_witness :
  exists ret w',
    Demo.run_loadMscz Demo.world0
      (Demo.package "4.00" Demo.oneScore ["Violin"; "Cello"]) false
    = Returned (ret, w') /\
    map excerptName (excerpts (master w')) = ["Violin"; "Cello"] /\
    List.length (excerpts (master w')) = 2%nat.
Proof.
  destruct (@loadMscz_excerpts Demo.model Demo.collaborators Demo.world0
              (Demo.package "4.00" Demo.oneScore ["Violin"; "Cello"]) false
              (Demo.atRoot "4.00" Demo.oneScore) 400)
    as [ret [st [w' [_ [Hload [_ [Hnew _]]]]]]].
  - reflexivity.
  - apply FindsRoot_here; reflexivity.
  - reflexivity.
  - exact Demo_ForwardOnly.
  - apply Demo_ReadersKeep. reflexivity.
  - intros m ex. reflexivity.
  - intros p m. reflexivity.
  - destruct Hnew as [exs [_ [_ [_ Hk]]]]; [vm_compute; discriminate|].
    destruct Hk as [_ Hnone]; [apply Demo_ReadersKeep; reflexivity|].
    exists ret, w'. split; [exact Hload|]. apply Hnone. reflexivity.
Defined.

(** Version 5.00 is rejected as too new and its part is read all the same. *)
Lemma loadMscz_rejected_still_reads_excerpts_witness :
  exists w',
    Demo.run_loadMscz Demo.world0 (Demo.package "5.00" [] ["Violin"]) false
    = Returned (make_ret FileTooNew, w') /\
    map excerptName (excerpts (master w')) = ["Violin"].
Proof.
  destruct (@loadMscz_rejected_still_reads_excerpts Demo.model Demo.collaborators
              Demo.world0 (Demo.package "5.00" [] ["Violin"]) false
              (Demo.atRoot "5.00" []) 500)
    as [_ Hnew].
  - reflexivity.
  - apply FindsRoot_here; reflexivity.
  - reflexivity.
  - destruct Hnew as [w' [Hload [_ Hexs]]]; [reflexivity|reflexivity|simpl; lia|].
    exists w'. split; [exact Hload|].
    destruct Hexs as [exs [Hexs [Hnames _]]].
    + intros m ex. reflexivity.
    + intros p m. reflexivity.
    + rewrite Hexs. exact Hnames.
Defined.



(** *** Further loads *)

Example program_version_and_revision_stored :
  omap (fun r => (mscoreVersion (score (snd r)), mscoreRevision (score (snd r))))
    (Demo.run_doRead (Demo.inside Demo.programOnly))
  = Returned ("4.0.0", 31).
Proof. reflexivity. Qed.

(** A stream whose only element is foreign. *)
Lemma read_without_root_witness :
  exists st',
    Demo.run_read None
      (scoreReadState (Demo.packageOf Demo.foreignFile []) false Demo.world0)
    = Returned (make_ret_text FileCorrupted "", st') /\
    score st' = Demo.master0.
Proof.
  edestruct (@read_without_root Demo.model Demo.collaborators None
               (scoreReadState (Demo.packageOf Demo.foreignFile []) false Demo.world0))
    as [st' [Hread [Hscore _]]].
  - eapply FindsNoRoot_skip;
      [reflexivity|simpl; discriminate|apply FindsNoRoot_end; reflexivity].
  - exists st'. split; [exact Hread|exact Hscore].
Defined.

(** A 4.00 score that loads: its root was found and its version accepted. *)
Lemma read_success_means_accepted_witness :
  exists e1 v,
    FindsRoot (xml (Demo.state0 "4.00" Demo.oneScore false)) e1 /\
    declaredVersion e1 = Some v.
Proof.
  edestruct (@read_success_means_accepted Demo.model Demo.collaborators None
               (Demo.state0 "4.00" Demo.oneScore false))
    as [e1 [v [l [k [Hroot [Hv _]]]]]].
  - reflexivity.
  - reflexivity.
  - exists e1, v. split; [exact Hroot|exact Hv].
Defined.


(** A root with program version, program revision and a revision element. *)
Lemma doRead_without_Score_witness :
  exists st',
    Demo.run_doRead (Demo.inside Demo.programOnly) = Returned (NoError, st') /\
    calls st' = [] /\
    body (score st') = body Demo.master0.
Proof.
  destruct (@doRead_without_Score Demo.model Demo.collaborators
              (Demo.inside Demo.programOnly) eq_refl)
    as [st' [Hrun [Hcalls [_ Hscore]]]].
  exists st'. split; [exact Hrun|]. split; [exact Hcalls|].
  rewrite Hscore. reflexivity.
Defined.

(** Version 3.02, enforced: [doRead] is not among the calls. *)
Lemma enforced_reader_ranges_witness :
  exists ret st' l,
    Demo.run_read None (Demo.state0 "3.02" [] false) = Returned (ret, st') /\
    calls st' = l /\
    ~ In (CallReader Read400) l.
Proof.
  edestruct (@enforced_reader_ranges Demo.model Demo.collaborators None
               (Demo.state0 "3.02" [] false) (Demo.atRoot "3.02" []) 302)
    as [l [Hcalls [_ [_ [_ H400]]]]].
  - apply FindsRoot_here; reflexivity.
  - reflexivity.
  - reflexivity.
  - intros h m. reflexivity.
  - reflexivity.
  - eexists. eexists. exists l. split; [reflexivity|].
    split; [exact Hcalls|].
    intros Hin. apply H400 in Hin. lia.
Defined.

(** A load rejected as too old hands back the settings of a new context in
    place of those the caller held. *)
Lemma loadMscz_settings_witness :
  exists w',
    Demo.run_loadMscz Demo.worldWithAudio (Demo.package "1.13" [] []) false
    = Returned (make_ret FileTooOld, w') /\
    settingsCompat w' = [].
Proof.
  destruct (@loadMscz_settings Demo.model Demo.collaborators Demo.worldWithAudio
              (Demo.package "1.13" [] []) false)
    as [_ Hopened].
  destruct (Hopened eq_refl) as [_ [Hrejected _]].
  apply (Hrejected (Demo.atRoot "1.13" []) 113 FileTooOld).
  - apply FindsRoot_here; reflexivity.
  - reflexivity.
  - reflexivity.
Defined.

(** A master that holds an audio object ends with the audio of the package. *)
Lemma loadMscz_audio_witness :
  exists w',
    Demo.run_loadMscz Demo.worldWithAudio
      (Demo.packageOf (Demo.scoreFile "4.00" Demo.oneScore) ["Violin"]) false
    = Returned (make_ret NoError, w') /\
    audio (master w') = Some [Byte.x07].
Proof.
  edestruct (@loadMscz_audio Demo.model Demo.collaborators Demo.worldWithAudio
               (Demo.packageOf (Demo.scoreFile "4.00" Demo.oneScore) ["Violin"]) false)
    as [w' [Hload Haudio]].
  - reflexivity.
  - reflexivity.
  - split; intros; reflexivity.
  - exists w'. split; [exact Hload|exact Haudio].
Defined.

(** A foreign stream loaded into a new master, whose version is 400: the
    part of the package is read and appended, the load reports corruption. *)
Lemma loadMscz_without_root_excerpts_witness :
  exists w',
    Demo.run_loadMscz Demo.world0 (Demo.packageOf Demo.foreignFile ["Violin"]) false
    = Returned (make_ret_text FileCorrupted "", w') /\
    map excerptName (excerpts (master w')) = ["Violin"].
Proof.
  edestruct (@loadMscz_without_root_excerpts Demo.model Demo.collaborators
               Demo.world0 (Demo.packageOf Demo.foreignFile ["Violin"]) false)
    as [w' [Hload [Hnew _]]].
  - reflexivity.
  - eapply FindsNoRoot_skip;
      [reflexivity|simpl; discriminate|apply FindsNoRoot_end; reflexivity].
  - exists w'. split; [exact Hload|].
    destruct Hnew as [_ Hexs]; [simpl; lia|].
    destruct Hexs as [exs [Hexs Hnames]].
    + intros m ex. reflexivity.
    + intros p m. reflexivity.
    + rewrite Hexs. exact Hnames.
Defined.

(** A 3.02 score with a part in the package: hook and reader, no excerpt
    step. *)
Lemma loadMscz_call_order_witness :
  exists l ex rest,
    [CallHookSetupDefaultStyle; CallReader Read302] = l ++ ex ++ rest /\
    forallb isReadCall l = true /\
    (ex = [] \/ ex = flat_map excerptCalls ["Violin"]) /\
    audioCalls rest.
Proof.
  exact (@loadMscz_call_order Demo.model Demo.collaborators Demo.world0
           (Demo.package "3.02" [] ["Violin"]) false _ _ eq_refl eq_refl).
Defined.

(** The version attribute "4": the load runs into the out-of-range access. *)
Lemma loadMscz_returns_unless_no_minor_witness :
  Demo.run_loadMscz Demo.world0 (Demo.package "4" [] []) false = OutOfRange.
Proof.
  apply (@loadMscz_returns_unless_no_minor Demo.model Demo.collaborators
           Demo.world0 (Demo.package "4" [] []) false Demo_ForwardOnly).
  split; [reflexivity|].
  exists (Demo.atRoot "4" []). split; [apply FindsRoot_here; reflexivity|reflexivity].
Defined.

(** A revision element with content, then the end of the root. *)
Lemma doRead_Revision_skipped_witness :
  Demo.run_doRead
    (Demo.inside [Xml.StartElement "Revision" []; Xml.StartElement "Score" [("ok", "no")];
                  Xml.EndElement "Score"; Xml.EndElement "Revision";
                  Xml.EndElement "museScore"])
  = Demo.run_doRead (Demo.inside [Xml.EndElement "museScore"]).
Proof.
  unfold Demo.run_doRead.
  rewrite (@doRead_Revision_skipped Demo.model Demo.collaborators Demo_ForwardOnly
             (Demo.inside [Xml.StartElement "Revision" [];
                           Xml.StartElement "Score" [("ok", "no")];
                           Xml.EndElement "Score"; Xml.EndElement "Revision";
                           Xml.EndElement "museScore"])
             _ eq_refl eq_refl).
  reflexivity.
Defined.

(** A score of version 1.13 loaded into a master that holds an audio
    object: the version is written, the audio attached, nothing else. *)
Lemma loadMscz_rejected_frame_witness :
  exists w',
    Demo.run_loadMscz Demo.worldWithAudio (Demo.package "1.13" [] ["Violin"]) false
    = Returned (make_ret FileTooOld, w') /\
    master w' = setAudioData [] (setMscVersion 113 (master Demo.worldWithAudio)) /\
    log w' = [CallAudioSetData].
Proof.
  apply (@loadMscz_rejected_frame Demo.model Demo.collaborators Demo.worldWithAudio
           (Demo.package "1.13" [] ["Violin"]) false (Demo.atRoot "1.13" []) 113
           FileTooOld).
  - reflexivity.
  - apply FindsRoot_here; reflexivity.
  - reflexivity.
  - reflexivity.
  - reflexivity.
Defined.
